(** * The LLM battle engine of [backend/server.py]

    A shallow embedding of the ranking engine of the backend: the two
    collections of the document store ([llm_models], [votes]), the request
    handlers that read and write them ([seed_models], [get_battle],
    [submit_vote], [get_leaderboard], [get_battle_stats]) and the derived
    statistic [LLMModel.calculate_win_rate].

    Modelling choices, all of them about what lies outside the source file:
    - a collection is the list of its documents in insertion order;
      [update_one] and [find_one] act on the first document that matches;
    - Python [int] is [Z].  A stored counter is a 64-bit integer at most,
      a range in which [int / int] cannot overflow a double, and neither
      that limit nor [OverflowError] is represented;
    - Python [float] is the kernel's binary64 [float]; Python's [int / int]
      and [round(x, n)] are written out on the exact value of their
      arguments, and the store's order on doubles on an exact integer key;
    - [uuid.uuid4()], [datetime.utcnow()] and the generator behind
      [random.sample] are inputs of the handler that draws from them;
    - the store is reachable: no driver call raises. *)

From Stdlib Require Import ZArith List Bool String DecimalString Lia.
From Stdlib Require Import Sorting.Sorted Sorting.Permutation.
From Stdlib Require Import Floats.
Import ListNotations.

Local Open Scope string_scope.
Local Open Scope Z_scope.

(** ** Python numbers *)

Module Py.

(** Exceptions of the handlers.  [detail=str(e)] is kept symbolic
    ([StrOf e]): the text of [str] on an [HTTPException] is the web
    framework's business. *)
Inductive exn : Type :=
| ZeroDivisionError
| IndexError
| ValueError
| HTTPException (status_code : Z) (detail : text)
with text : Type :=
| Msg (s : string)
| StrOf (e : exn).

(** An integer as the float of the same value (exact below [2^53]). *)
Definition int_SF (n : Z) : spec_float :=
  match n with
  | Z0 => S754_zero false
  | Zpos p => S754_finite false p 0
  | Zneg p => S754_finite true p 0
  end.

(** [a / b] on integers, [b <> 0]: the float nearest to the exact
    quotient. *)
Definition int_true_divide (a b : Z) : float :=
  SF2Prim (SFdiv prec emax (int_SF a) (int_SF b)).

(** [a / b] on integers whose quotient a double can hold.  (Beyond, where
    [quotient_overflows] below holds, Python raises [OverflowError]; the
    integers that the store holds stay far from it.) *)
Definition truediv (a b : Z) : exn + float :=
  if b =? 0 then inl ZeroDivisionError else inr (int_true_divide a b).

(** Nearest integer to [n / 2^k], ties to the even one. *)
Definition half_even_shr (n : Z) (k : Z) : Z :=
  let den := 2 ^ k in
  let q := n / den in
  let r := n mod den in
  match 2 * r ?= den with
  | Lt => q
  | Gt => q + 1
  | Eq => if Z.even q then q else q + 1
  end.

(** [round(x, ndigits)] for [0 <= ndigits]: the decimal with [ndigits]
    digits after the point nearest to the exact value of [x] (ties to
    even), read back as a float.  Zeros, infinities and NaN round to
    themselves. *)
Definition round (x : float) (ndigits : Z) : float :=
  match Prim2SF x with
  | S754_finite s m e =>
      let scaled := Zpos m * 10 ^ ndigits in
      let d := if 0 <=? e then scaled * 2 ^ e else half_even_shr scaled (- e) in
      let r := int_true_divide d (10 ^ ndigits) in
      if s then (- r)%float else r
  | _ => x
  end.

(** The numeric order of the store on doubles, as an integer key: a finite
    double is a multiple of [2^-1074]; NaN sorts below every number. *)
Definition order_key (x : float) : Z :=
  match Prim2SF x with
  | S754_zero _ => 0
  | S754_finite s m e =>
      let v := Zpos m * 2 ^ (e + 1074) in if s then - v else v
  | S754_infinity s => if s then - 2 ^ 2098 else 2 ^ 2098
  | S754_nan => - 2 ^ 2099
  end.

(** [l[i]] and [l[i] = x] on a list. *)
Definition getitem {A : Type} (l : list A) (i : nat) : exn + A :=
  match nth_error l i with
  | Some x => inr x
  | None => inl IndexError
  end.

Fixpoint setitem {A : Type} (l : list A) (i : nat) (x : A) : exn + list A :=
  match l, i with
  | [], _ => inl IndexError
  | _ :: tl, O => inr (x :: tl)
  | a :: tl, S i' =>
      match setitem tl i' x with
      | inl e => inl e
      | inr tl' => inr (a :: tl')
      end
  end.

Definition and_then {A B : Type} (r : exn + A) (k : A -> exn + B) : exn + B :=
  match r with
  | inl e => inl e
  | inr a => k a
  end.

End Py.

(** ** [random.sample] *)

Module Random.

(** [randbelow(n)] on the raw draw [r]. *)
Definition randbelow (n : nat) (r : nat) : nat := Nat.modulo r n.

(** The selection loop of [sample] on a pool of [m] live items: the item
    drawn is replaced by the last live one.  [rand i] is the [i]-th raw
    draw of the generator.  (On a long population the library tracks the
    indices drawn and draws again on a repeat; the outcomes are the same:
    items at pairwise different places.) *)
Fixpoint sample_loop {A : Type} (pool : list A) (m k : nat)
    (rand : nat -> nat) (i : nat) : Py.exn + list A :=
  match k with
  | O => inr []
  | S k' =>
      let j := randbelow m (rand i) in
      Py.and_then (Py.getitem pool j) (fun x =>
      Py.and_then (Py.getitem pool (m - 1)) (fun y =>
      Py.and_then (Py.setitem pool j y) (fun pool' =>
      Py.and_then (sample_loop pool' (m - 1) k' rand (S i)) (fun rest =>
      inr (x :: rest)))))
  end.

(** [random.sample(population, k)] *)
Definition sample {A : Type} (population : list A) (k : nat)
    (rand : nat -> nat) : Py.exn + list A :=
  let n := List.length population in
  if (n <? k)%nat then inl Py.ValueError
  else sample_loop population n k rand 0.

End Random.

(** ** The data model *)

Definition datetime : Type := Z.

(** What one construction of a model object draws from its default
    factories: [uuid.uuid4()] for [id], [datetime.utcnow()] for the time
    stamp. *)
Record Fresh : Type := { uuid4 : string; utcnow : datetime }.

Module LLMModel.

Record t : Type := mk {
  id : string;
  name : string;
  provider : string;
  description : string;
  capabilities : list string;
  performance_score : float;
  total_votes : Z;
  wins : Z;
  losses : Z;
  win_rate : float;
  created_at : datetime;
  image_url : option string
}.

Definition calculate_win_rate (self : t) : Py.exn + float :=
  if total_votes self =? 0 then inr 0%float
  else
    match Py.truediv (wins self) (total_votes self) with
    | inl e => inl e
    | inr q => inr (Py.round (q * 100)%float 1)
    end.

End LLMModel.

Module Vote.

Record t : Type := mk {
  id : string;
  winner_id : string;
  loser_id : string;
  voter_ip : option string;
  timestamp : datetime
}.

End Vote.

Module Battle.
Record t : Type := mk { model1 : LLMModel.t; model2 : LLMModel.t }.
End Battle.

Module VoteRequest.
Record t : Type := mk { winner_id : string; loser_id : string }.
End VoteRequest.

(** The [{"success": ..., "message": ...}] answer of the writing routes. *)
Module Reply.
Record t : Type := mk { success : bool; message : string }.
End Reply.

(** The answer of [/stats]. *)
Module Stats.
Record t : Type := mk {
  total_votes : Z;
  total_models : Z;
  top_model : option string;
  battles_completed : Z
}.
End Stats.

(** ** The document store *)

(** The operations of a collection that the handlers use, on the list of its
    documents. *)
Module Collection.

Section Ops.
Context {D : Type}.

Definition drop (c : list D) : list D := [].

Definition insert_one (d : D) (c : list D) : list D := c ++ [d].

(** The first document that passes the filter is updated; none passing,
    nothing changes. *)
Fixpoint update_one (filter : D -> bool) (upd : D -> D) (c : list D) : list D :=
  match c with
  | [] => []
  | d :: rest =>
      if filter d then upd d :: rest else d :: update_one filter upd rest
  end.

Definition find_one (filter : D -> bool) (c : list D) : option D :=
  List.find filter c.

Definition count_documents (c : list D) : Z := Z.of_nat (List.length c).

(** A cursor: [sort], [limit], [to_list]. *)
Definition limit (n : nat) (cursor : list D) : list D := firstn n cursor.

Definition to_list (n : nat) (cursor : list D) : list D := firstn n cursor.

Fixpoint insert_sorted (leb : D -> D -> bool) (d : D) (l : list D) : list D :=
  match l with
  | [] => [d]
  | x :: rest =>
      if leb d x then d :: l else x :: insert_sorted leb d rest
  end.

(** The order among documents with equal keys is the store's; here it
    falls out of inserting the documents one by one from the last. *)
Fixpoint sort (leb : D -> D -> bool) (cursor : list D) : list D :=
  match cursor with
  | [] => []
  | d :: rest => insert_sorted leb d (sort leb rest)
  end.
End Ops.

End Collection.

(** Filters, updates and sort keys on model documents. *)
Module Query.

(** The integer fields that [$inc] is applied to, and the fields a sort
    can name. *)
Inductive counter : Type := total_votes | wins | losses.

Inductive field : Type := Int (c : counter) | win_rate.

(** [{"id": x}] *)
Definition by_id (x : string) (d : LLMModel.t) : bool :=
  String.eqb (LLMModel.id d) x.

Definition get (c : counter) (d : LLMModel.t) : Z :=
  match c with
  | total_votes => LLMModel.total_votes d
  | wins => LLMModel.wins d
  | losses => LLMModel.losses d
  end.

Definition inc_field (c : counter) (n : Z) (d : LLMModel.t) : LLMModel.t :=
  let tv := match c with total_votes => LLMModel.total_votes d + n | _ => LLMModel.total_votes d end in
  let w := match c with wins => LLMModel.wins d + n | _ => LLMModel.wins d end in
  let l := match c with losses => LLMModel.losses d + n | _ => LLMModel.losses d end in
  LLMModel.mk (LLMModel.id d) (LLMModel.name d) (LLMModel.provider d)
    (LLMModel.description d) (LLMModel.capabilities d)
    (LLMModel.performance_score d) tv w l (LLMModel.win_rate d)
    (LLMModel.created_at d) (LLMModel.image_url d).

Definition set_win_rate (r : float) (d : LLMModel.t) : LLMModel.t :=
  LLMModel.mk (LLMModel.id d) (LLMModel.name d) (LLMModel.provider d)
    (LLMModel.description d) (LLMModel.capabilities d)
    (LLMModel.performance_score d) (LLMModel.total_votes d)
    (LLMModel.wins d) (LLMModel.losses d) r
    (LLMModel.created_at d) (LLMModel.image_url d).

(** [{"$inc": {...}}] and [{"$set": {"win_rate": r}}] *)
Inductive update : Type :=
| Inc (fields : list (counter * Z))
| SetWinRate (r : float).

Definition apply (u : update) (d : LLMModel.t) : LLMModel.t :=
  match u with
  | Inc fields => fold_left (fun d' fn => inc_field (fst fn) (snd fn) d') fields d
  | SetWinRate r => set_win_rate r d
  end.

Definition compare_field (f : field) (a b : LLMModel.t) : comparison :=
  match f with
  | Int c => get c a ?= get c b
  | win_rate =>
      Py.order_key (LLMModel.win_rate a) ?= Py.order_key (LLMModel.win_rate b)
  end.

(** [a] may stand before [b] under the sort specification [keys]: a list
    of fields, each with a direction, [1] ascending and [-1] descending. *)
Fixpoint leb (keys : list (field * Z)) (a b : LLMModel.t) : bool :=
  match keys with
  | [] => true
  | (f, dir) :: rest =>
      match compare_field f a b with
      | Lt => 0 <? dir
      | Gt => negb (0 <? dir)
      | Eq => leb rest a b
      end
  end.

End Query.

(** The database: the two collections of the engine. *)
Record Db : Type := { llm_models : list LLMModel.t; votes : list Vote.t }.

(** A handler runs on the database and returns a value or raises. *)
Definition M (A : Type) : Type := Db -> (Py.exn + A) * Db.

Definition ret {A : Type} (a : A) : M A := fun db => (inr a, db).

Definition bind {A B : Type} (m : M A) (k : A -> M B) : M B :=
  fun db =>
    match m db with
    | (inl e, db') => (inl e, db')
    | (inr a, db') => k a db'
    end.

Definition raise {A : Type} (e : Py.exn) : M A := fun db => (inl e, db).

Definition lift {A : Type} (r : Py.exn + A) : M A := fun db => (r, db).

Definition try_except {A : Type} (body : M A) (handler : Py.exn -> M A) : M A :=
  fun db =>
    match body db with
    | (inl e, db') => handler e db'
    | (inr a, db') => (inr a, db')
    end.

Declare Scope handler_scope.
Delimit Scope handler_scope with handler.
Notation "x <- m ;; k" := (bind m (fun x => k))
  (at level 61, m at next level, right associativity) : handler_scope.
Notation "m ;; k" := (bind m (fun _ => k))
  (at level 61, right associativity) : handler_scope.
Local Open Scope handler_scope.

Fixpoint for_ {A : Type} (l : list A) (body : A -> M unit) : M unit :=
  match l with
  | [] => ret tt
  | x :: rest => body x ;; for_ rest body
  end.

(** [db.llm_models] and [db.votes] *)
Module db.

Definition on_models (f : list LLMModel.t -> list LLMModel.t) : M unit :=
  fun d => (inr tt, {| llm_models := f (llm_models d); votes := votes d |}).

Definition on_votes (f : list Vote.t -> list Vote.t) : M unit :=
  fun d => (inr tt, {| llm_models := llm_models d; votes := f (votes d) |}).

Definition read {A : Type} (f : Db -> A) : M A := fun d => (inr (f d), d).

Module llm_models.
Definition drop : M unit := on_models Collection.drop.
Definition insert_one (doc : LLMModel.t) : M unit :=
  on_models (Collection.insert_one doc).
Definition update_one (filter : LLMModel.t -> bool) (u : Query.update) : M unit :=
  on_models (Collection.update_one filter (Query.apply u)).
Definition find_one (filter : LLMModel.t -> bool) : M (option LLMModel.t) :=
  read (fun d => Collection.find_one filter (llm_models d)).
(** A cursor is run by [to_list]; until then it is a view of the
    collection. *)
Definition cursor : Type := list LLMModel.t -> list LLMModel.t.
Definition find : cursor := fun c => c.
Definition sort (keys : list (Query.field * Z)) (cur : cursor) : cursor :=
  fun c => Collection.sort (Query.leb keys) (cur c).
Definition limit (n : nat) (cur : cursor) : cursor :=
  fun c => Collection.limit n (cur c).
Definition to_list (n : nat) (cur : cursor) : M (list LLMModel.t) :=
  read (fun d => Collection.to_list n (cur (llm_models d))).
Definition count_documents : M Z :=
  read (fun d => Collection.count_documents (llm_models d)).
End llm_models.

Module votes.
Definition insert_one (doc : Vote.t) : M unit :=
  on_votes (Collection.insert_one doc).
Definition count_documents : M Z :=
  read (fun d => Collection.count_documents (votes d)).
End votes.

End db.

(** ** The handlers *)

(** The catalog that [seed_models] installs. *)
Module Seed.

Record data : Type := mk {
  name : string;
  provider : string;
  description : string;
  capabilities : list string;
  performance_score : float;
  image_url : string
}.

Definition models : list data := [
  mk "GPT-4" "OpenAI"
     "OpenAI's most advanced GPT model with superior reasoning capabilities"
     ["Text Generation"; "Code"; "Math"; "Analysis"; "Creative Writing"]
     95
     "https://images.unsplash.com/photo-1677442136019-21780ecad995?w=400";
  mk "Claude 4 Sonnet" "Anthropic"
     "Anthropic's flagship model balancing intelligence, speed, and cost"
     ["Text Analysis"; "Code"; "Math"; "Creative Tasks"; "Safety"]
     94
     "https://images.unsplash.com/photo-1655635949348-953b0e3c140a?w=400";
  mk "Gemini 2.5 Pro" "Google"
     "Google's most advanced multimodal AI with exceptional capabilities"
     ["Multimodal"; "Long Context"; "Code"; "Math"; "Analysis"]
     93
     "https://images.unsplash.com/photo-1639322537228-f710d846310a?w=400";
  mk "Claude 4 Haiku" "Anthropic"
     "Fast and efficient model for quick responses"
     ["Speed"; "Text Generation"; "Basic Analysis"; "Code"]
     87
     "https://images.unsplash.com/photo-1620712943543-bcc4688e7485?w=400";
  mk "Llama 3.3" "Meta"
     "Open-source powerhouse with strong performance"
     ["Open Source"; "Text Generation"; "Code"; "Multilingual"]
     89
     "https://images.unsplash.com/photo-1555949963-aa79dcee981c?w=400";
  mk "Mistral Large" "Mistral AI"
     "European AI model with strong multilingual capabilities"
     ["Multilingual"; "Code"; "Text Generation"; "Analysis"]
     86
     "https://images.unsplash.com/photo-1451187580459-43490279c0fa?w=400";
  mk "PaLM 2" "Google"
     "Google's language model with strong reasoning abilities"
     ["Reasoning"; "Code"; "Math"; "Multilingual"]
     85
     "https://images.unsplash.com/photo-1518709268805-4e9042af2176?w=400";
  mk "GPT-3.5 Turbo" "OpenAI"
     "Fast and cost-effective model for general tasks"
     ["Speed"; "Cost-effective"; "Text Generation"; "Code"]
     82
     "https://images.unsplash.com/photo-1676277791608-ac54325e36e1?w=400"
].

(** The model object built from one seed dictionary: the fields that the
    dictionary leaves out take their defaults. *)
Definition to_model (fresh : Fresh) (model_data : data) : LLMModel.t :=
  LLMModel.mk (uuid4 fresh) (name model_data) (provider model_data)
    (description model_data) (capabilities model_data)
    (performance_score model_data) 0 0 0 0%float
    (utcnow fresh) (Some (image_url model_data)).

End Seed.

(** [except Exception as e: raise HTTPException(status_code=500, detail=str(e))] *)
Definition internal_error {A : Type} (e : Py.exn) : M A :=
  raise (Py.HTTPException 500 (Py.StrOf e)).

Fixpoint enumerate {A : Type} (start : nat) (l : list A) : list (nat * A) :=
  match l with
  | [] => []
  | x :: rest => (start, x) :: enumerate (S start) rest
  end.

Definition str_of_len {A : Type} (l : list A) : string :=
  NilZero.string_of_uint (Nat.to_uint (List.length l)).

(** [POST /models/seed]; [fresh k] is what the construction of the [k]-th
    model draws. *)
Definition seed_models (fresh : nat -> Fresh) : M Reply.t :=
  let models := Seed.models in
  try_except
    (db.llm_models.drop ;;
     for_ (enumerate 0 models) (fun km =>
       let model := Seed.to_model (fresh (fst km)) (snd km) in
       db.llm_models.insert_one model) ;;
     ret (Reply.mk true ("Seeded " ++ str_of_len models ++ " LLM models")))
    internal_error.

(** [GET /models] *)
Definition get_all_models : M (list LLMModel.t) :=
  try_except
    (models <- db.llm_models.to_list 1000 db.llm_models.find ;;
     ret models)
    internal_error.

(** [GET /battle]; [rand] is the generator behind [random.sample]. *)
Definition get_battle (rand : nat -> nat) : M Battle.t :=
  try_except
    (models <- db.llm_models.to_list 1000 db.llm_models.find ;;
     if (List.length models <? 2)%nat then
       raise (Py.HTTPException 400 (Py.Msg "Need at least 2 models to battle"))
     else
       selected_models <- lift (Random.sample models 2 rand) ;;
       m1 <- lift (Py.getitem selected_models 0) ;;
       m2 <- lift (Py.getitem selected_models 1) ;;
       ret (Battle.mk m1 m2))
    internal_error.

(** [POST /vote]; [fresh] is what the construction of the vote draws. *)
Definition submit_vote (fresh : Fresh) (vote_request : VoteRequest.t) : M Reply.t :=
  try_except
    (let vote :=
       Vote.mk (uuid4 fresh) (VoteRequest.winner_id vote_request)
         (VoteRequest.loser_id vote_request) None (utcnow fresh) in
     db.votes.insert_one vote ;;
     let winner_update := Query.Inc [(Query.total_votes, 1); (Query.wins, 1)] in
     db.llm_models.update_one
       (Query.by_id (VoteRequest.winner_id vote_request)) winner_update ;;
     let loser_update := Query.Inc [(Query.total_votes, 1); (Query.losses, 1)] in
     db.llm_models.update_one
       (Query.by_id (VoteRequest.loser_id vote_request)) loser_update ;;
     for_ [VoteRequest.winner_id vote_request; VoteRequest.loser_id vote_request]
       (fun model_id =>
          model <- db.llm_models.find_one (Query.by_id model_id) ;;
          match model with
          | Some model_obj =>
              win_rate <- lift (LLMModel.calculate_win_rate model_obj) ;;
              db.llm_models.update_one (Query.by_id model_id)
                (Query.SetWinRate win_rate)
          | None => ret tt
          end) ;;
     ret (Reply.mk true "Vote recorded successfully"))
    internal_error.

(** [GET /leaderboard] *)
Definition get_leaderboard : M (list LLMModel.t) :=
  try_except
    (models <-
       db.llm_models.to_list 1000
         (db.llm_models.sort [(Query.Int Query.wins, -1); (Query.win_rate, -1)]
            db.llm_models.find) ;;
     ret models)
    internal_error.

(** [GET /stats] *)
Definition get_battle_stats : M Stats.t :=
  try_except
    (total_votes <- db.votes.count_documents ;;
     total_models <- db.llm_models.count_documents ;;
     top_models <-
       db.llm_models.to_list 1
         (db.llm_models.limit 1
            (db.llm_models.sort [(Query.Int Query.wins, -1)] db.llm_models.find)) ;;
     let top_model :=
       match top_models with
       | m :: _ => Some m
       | [] => None
       end in
     ret (Stats.mk total_votes total_models
            (option_map LLMModel.name top_model) total_votes))
    internal_error.

(** An empty store, and a supply of fresh draws for the examples. *)
Definition empty_db : Db := {| llm_models := []; votes := [] |}.

Definition fresh_of (tag : string) (k : nat) : Fresh :=
  {| uuid4 := tag ++ "-" ++ NilZero.string_of_uint (Nat.to_uint k);
     utcnow := Z.of_nat k |}.

Definition seeded_db : Db := snd (seed_models (fresh_of "m") empty_db).

(** The states of the store that the routes produce from an empty one when
    the requests are handled one at a time, each handler running to its end
    before the next starts. *)
Inductive reachable : Db -> Prop :=
| reach_empty : reachable empty_db
| reach_seed_models fresh d :
    reachable d -> reachable (snd (seed_models fresh d))
| reach_submit_vote fresh vote_request d :
    reachable d -> reachable (snd (submit_vote fresh vote_request d))
| reach_get_all_models d :
    reachable d -> reachable (snd (get_all_models d))
| reach_get_battle rand d :
    reachable d -> reachable (snd (get_battle rand d))
| reach_get_leaderboard d :
    reachable d -> reachable (snd (get_leaderboard d))
| reach_get_battle_stats d :
    reachable d -> reachable (snd (get_battle_stats d)).

(** Votes submitted one after the other. *)
Fixpoint run_votes (vs : list (Fresh * VoteRequest.t)) (d : Db) : Db :=
  match vs with
  | [] => d
  | (fresh, vote_request) :: rest =>
      run_votes rest (snd (submit_vote fresh vote_request d))
  end.

(** ** What one vote does to the catalog *)

(** The win rate that [calculate_win_rate] returns on counters [w] and [t]. *)
Definition win_rate_of (w t : Z) : float :=
  if t =? 0 then 0%float
  else Py.round (Py.int_true_divide w t * 100)%float 1.

(** An update followed by the write of the recomputed win rate. *)
Definition recompute (d : LLMModel.t) : LLMModel.t :=
  Query.apply
    (Query.SetWinRate (win_rate_of (LLMModel.wins d) (LLMModel.total_votes d))) d.

Definition settle (u : Query.update) (d : LLMModel.t) : LLMModel.t :=
  recompute (Query.apply u d).

Definition winner_update : Query.update :=
  Query.Inc [(Query.total_votes, 1); (Query.wins, 1)].

Definition loser_update : Query.update :=
  Query.Inc [(Query.total_votes, 1); (Query.losses, 1)].

(** The vote that [submit_vote] records. *)
Definition vote_of (fresh : Fresh) (vote_request : VoteRequest.t) : Vote.t :=
  Vote.mk (uuid4 fresh) (VoteRequest.winner_id vote_request)
    (VoteRequest.loser_id vote_request) None (utcnow fresh).

Definition vote_recorded : Reply.t := Reply.mk true "Vote recorded successfully".

(** The catalog after the four writes of [submit_vote]. *)
Definition voted (w l : string) (c : list LLMModel.t) : list LLMModel.t :=
  let c1 := Collection.update_one (Query.by_id w) (Query.apply winner_update) c in
  let c2 := Collection.update_one (Query.by_id l) (Query.apply loser_update) c1 in
  let c3 := Collection.update_one (Query.by_id w) recompute c2 in
  Collection.update_one (Query.by_id l) recompute c3.

(** ** The vocabulary of the claims *)

(** The catalog that [seed_models] builds from the draws [fresh]. *)
Definition seeded_catalog (fresh : nat -> Fresh) : list LLMModel.t :=
  map (fun km => Seed.to_model (fresh (fst km)) (snd km))
    (enumerate 0 Seed.models).

Definition leaderboard_keys : list (Query.field * Z) :=
  [(Query.Int Query.wins, -1); (Query.win_rate, -1)].

Definition win_rate_current (m : LLMModel.t) : Prop :=
  LLMModel.win_rate m = win_rate_of (LLMModel.wins m) (LLMModel.total_votes m).

(** What the claim says of one model: its stored [win_rate] is the rounded
    percentage of its counters, and [0.0] without votes. *)
Definition win_rate_settled (m : LLMModel.t) : Prop :=
  (0 < LLMModel.total_votes m ->
   LLMModel.win_rate m
   = Py.round
       (Py.int_true_divide (LLMModel.wins m) (LLMModel.total_votes m) * 100)%float 1)
  /\ (LLMModel.total_votes m = 0 -> LLMModel.win_rate m = 0%float).

(** The counters of a model add up and are not negative. *)
Definition counters_ok (m : LLMModel.t) : Prop :=
  LLMModel.total_votes m = LLMModel.wins m + LLMModel.losses m
  /\ 0 <= LLMModel.total_votes m
  /\ 0 <= LLMModel.wins m
  /\ 0 <= LLMModel.losses m.

(** [m'] is the model [m] later on: no counter has gone down. *)
Definition counters_le (m m' : LLMModel.t) : Prop :=
  LLMModel.id m = LLMModel.id m'
  /\ LLMModel.total_votes m <= LLMModel.total_votes m'
  /\ LLMModel.wins m <= LLMModel.wins m'
  /\ LLMModel.losses m <= LLMModel.losses m'.

(** The order of the leaderboard: more wins first and, among equal wins,
    the higher win rate first. *)
Definition ranks_before (a b : LLMModel.t) : Prop :=
  LLMModel.wins b < LLMModel.wins a
  \/ (LLMModel.wins a = LLMModel.wins b
      /\ Py.order_key (LLMModel.win_rate b) <= Py.order_key (LLMModel.win_rate a)).

Definition need_two_models : Py.exn :=
  Py.HTTPException 500
    (Py.StrOf (Py.HTTPException 400 (Py.Msg "Need at least 2 models to battle"))).

Definition vote_0_beats_1 : VoteRequest.t := VoteRequest.mk "m-0" "m-1".

(** A catalog of 1001 models, as a store filled by other means can hold:
    the model of rank [k] has won all of its [k] votes. *)
Definition crowd_model (k : nat) : LLMModel.t :=
  LLMModel.mk (uuid4 (fresh_of "x" k)) "model" "provider" "" [] 0%float
    (Z.of_nat k) (Z.of_nat k) 0 (win_rate_of (Z.of_nat k) (Z.of_nat k))
    (utcnow (fresh_of "x" k)) None.

Definition crowded_db : Db :=
  {| llm_models := map crowd_model (seq 0 1001); votes := [] |}.

(** ** One call of a route, and sums over the catalog *)

(** The store after one call of any route of the engine. *)
Inductive route_step (d : Db) : Db -> Prop :=
| step_seed_models fresh : route_step d (snd (seed_models fresh d))
| step_submit_vote fresh vote_request :
    route_step d (snd (submit_vote fresh vote_request d))
| step_get_all_models : route_step d (snd (get_all_models d))
| step_get_battle rand : route_step d (snd (get_battle rand d))
| step_get_leaderboard : route_step d (snd (get_leaderboard d))
| step_get_battle_stats : route_step d (snd (get_battle_stats d)).

(** The sum of an integer field over the catalog. *)
Definition total (g : LLMModel.t -> Z) (c : list LLMModel.t) : Z :=
  fold_right (fun m acc => g m + acc) 0 c.

(** What a vote leaves alone in a document. *)
Definition same_card (m m' : LLMModel.t) : Prop :=
  LLMModel.id m' = LLMModel.id m
  /\ LLMModel.name m' = LLMModel.name m
  /\ LLMModel.provider m' = LLMModel.provider m
  /\ LLMModel.description m' = LLMModel.description m
  /\ LLMModel.capabilities m' = LLMModel.capabilities m
  /\ LLMModel.performance_score m' = LLMModel.performance_score m
  /\ LLMModel.created_at m' = LLMModel.created_at m
  /\ LLMModel.image_url m' = LLMModel.image_url m.

(** Whether some document passes the filter. *)
Definition found {D : Type} (p : D -> bool) (c : list D) : bool :=
  match Collection.find_one p c with
  | Some _ => true
  | None => false
  end.

(** ** The status routes *)

Module StatusCheck.
Record t : Type := mk {
  id : string;
  client_name : string;
  timestamp : datetime
}.
End StatusCheck.

Module StatusCheckCreate.
Record t : Type := mk { client_name : string }.
End StatusCheckCreate.




(** ** The agent routes *)

(** The agents come from a library: what it does during one request is an
    input of the handler ([World]), and its objects, its exceptions and the
    values of its metadata are left abstract.  The answer of [execute] has
    the four fields that the replies are built from, of the types that the
    replies declare.  What the handlers write to the log is left out. *)
Module Agents.

Section Routes.
Context {AgentObj LibError Value : Type}.

(** What a handler can raise: an exception of the library, its own
    [HTTPException], or the error of a call on [None]. *)
Inductive exc : Type :=
| Lib (e : LibError)
| Http (status_code : Z) (detail : string)
| AttributeError.

(** An error text: one that is given, or [str(e)]. *)
Inductive errtext : Type :=
| Given (s : string)
| StrOf (e : exc).

(** The answer of [agent.execute]. *)
Record AgentResponse : Type := {
  success : bool;
  content : string;
  metadata : list (string * Value);
  error : option string
}.

Record World : Type := {
  (* SearchAgent(agent_config) and ChatAgent(agent_config) *)
  new_search_agent : LibError + AgentObj;
  new_chat_agent : LibError + AgentObj;
  (* agent.execute(prompt) and agent.execute(prompt, use_tools=...) *)
  execute : AgentObj -> string -> option bool -> LibError + AgentResponse;
  get_capabilities : AgentObj -> LibError + list string;
  (* the validation of a value given for an [int] field *)
  int_field : Value -> LibError + Z
}.

(** The two module-level variables. *)
Record Globals : Type := {
  search_agent : option AgentObj;
  chat_agent : option AgentObj
}.

Record ChatRequest : Type := {
  message : string;
  agent_type : string;
  context : option (list (string * Value))
}.

Record ChatResponse : Type := {
  chat_success : bool;
  chat_response : string;
  chat_agent_type : string;
  chat_capabilities : list string;
  chat_metadata : list (string * Value);
  chat_error : option errtext
}.

Record SearchRequest : Type := { query : string; max_results : Z }.

Record SearchResponse : Type := {
  search_success : bool;
  search_query : string;
  summary : string;
  search_results : option (list (string * Value));
  sources_count : Z;
  search_error : option errtext
}.

(** The answer of [/agents/capabilities]. *)
Inductive CapabilitiesReply : Type :=
| Capabilities (search_caps chat_caps : list string)
| CapabilitiesError (e : errtext).

(** A handler runs on the globals and returns a value or raises. *)
Definition G (A : Type) : Type := Globals -> (exc + A) * Globals.

Definition gret {A : Type} (a : A) : G A := fun g => (inr a, g).

Definition gbind {A B : Type} (m : G A) (k : A -> G B) : G B :=
  fun g =>
    match m g with
    | (inl e, g') => (inl e, g')
    | (inr a, g') => k a g'
    end.

Definition graise {A : Type} (e : exc) : G A := fun g => (inl e, g).

(** A call into the library. *)
Definition call {A : Type} (r : LibError + A) : G A :=
  fun g =>
    match r with
    | inl e => (inl (Lib e), g)
    | inr a => (inr a, g)
    end.

Definition gtry {A : Type} (body : G A) (handler : exc -> G A) : G A :=
  fun g =>
    match body g with
    | (inl e, g') => handler e g'
    | (inr a, g') => (inr a, g')
    end.

Definition read_globals : G Globals := fun g => (inr g, g).

Definition set_search_agent (a : AgentObj) : G unit :=
  fun g => (inr tt, {| search_agent := Some a; chat_agent := chat_agent g |}).

Definition set_chat_agent (a : AgentObj) : G unit :=
  fun g => (inr tt, {| search_agent := search_agent g; chat_agent := Some a |}).

Definition is_none {A : Type} (o : option A) : bool :=
  match o with
  | None => true
  | Some _ => false
  end.

(** [d.get(key, default)] on a dictionary. *)
Fixpoint dict_get (d : list (string * Value)) (key : string) : option Value :=
  match d with
  | [] => None
  | (k, v) :: rest => if String.eqb k key then Some v else dict_get rest key
  end.

(** [POST /chat] *)
Definition chat_with_agent (w : World) (request : ChatRequest) : G ChatResponse :=
  gtry
    (gbind read_globals (fun g =>
     gbind
       (if String.eqb (agent_type request) "search" && is_none (search_agent g)
        then gbind (call (new_search_agent w)) set_search_agent
        else if String.eqb (agent_type request) "chat" && is_none (chat_agent g)
        then gbind (call (new_chat_agent w)) set_chat_agent
        else gret tt) (fun _ =>
     gbind read_globals (fun g =>
     let agent :=
       if String.eqb (agent_type request) "search"
       then search_agent g else chat_agent g in
     match agent with
     | None => graise (Http 500 "Failed to initialize agent")
     | Some agent =>
         gbind (call (execute w agent (message request) None)) (fun response =>
         gbind (call (get_capabilities w agent)) (fun capabilities =>
         gret {| chat_success := success response;
                 chat_response := content response;
                 chat_agent_type := agent_type request;
                 chat_capabilities := capabilities;
                 chat_metadata := metadata response;
                 chat_error := option_map Given (error response) |}))
     end))))
    (fun e =>
       gret {| chat_success := false;
               chat_response := "";
               chat_agent_type := agent_type request;
               chat_capabilities := [];
               chat_metadata := [];
               chat_error := Some (StrOf e) |}).

Definition search_prompt_of (q : string) : string :=
  "Search for information about: " ++ q
  ++ ". Provide a comprehensive summary with key findings.".

(** [POST /search] *)
Definition search_and_summarize (w : World) (request : SearchRequest)
    : G SearchResponse :=
  gtry
    (gbind read_globals (fun g =>
     gbind
       (if is_none (search_agent g)
        then gbind (call (new_search_agent w)) set_search_agent
        else gret tt) (fun _ =>
     gbind read_globals (fun g =>
     let search_prompt := search_prompt_of (query request) in
     match search_agent g with
     | None => graise AttributeError
     | Some agent =>
         gbind (call (execute w agent search_prompt (Some true))) (fun result =>
         if success result then
           gbind
             (match dict_get (metadata result) "tools_used" with
              | Some v => call (int_field w v)
              | None => gret 0
              end) (fun count =>
           gret {| search_success := true;
                   search_query := query request;
                   summary := content result;
                   search_results := Some (metadata result);
                   sources_count := count;
                   search_error := None |})
         else
           gret {| search_success := false;
                   search_query := query request;
                   summary := "";
                   search_results := None;
                   sources_count := 0;
                   search_error := option_map Given (error result) |})
     end))))
    (fun e =>
       gret {| search_success := false;
               search_query := query request;
               summary := "";
               search_results := None;
               sources_count := 0;
               search_error := Some (StrOf e) |}).

(** [GET /agents/capabilities] *)
Definition get_agent_capabilities (w : World) : G CapabilitiesReply :=
  gtry
    (gbind (call (new_search_agent w)) (fun s =>
     gbind (call (get_capabilities w s)) (fun search_caps =>
     gbind (call (new_chat_agent w)) (fun c =>
     gbind (call (get_capabilities w c)) (fun chat_caps =>
     gret (Capabilities search_caps chat_caps))))))
    (fun e => gret (CapabilitiesError (StrOf e))).

End Routes.

Arguments exc : clear implicits.
Arguments errtext : clear implicits.
Arguments AgentResponse : clear implicits.
Arguments World : clear implicits.
Arguments Globals : clear implicits.
Arguments ChatRequest : clear implicits.
Arguments ChatResponse : clear implicits.
Arguments SearchResponse : clear implicits.
Arguments G : clear implicits.

End Agents.

(** The reply of [chat_with_agent] and of [search_and_summarize] when
    [e] was raised on the way. *)
Definition chat_failure {LibError Value : Type}
    (request : Agents.ChatRequest Value) (e : Agents.exc LibError)
    : Agents.ChatResponse LibError Value :=
  {| Agents.chat_success := false;
     Agents.chat_response := "";
     Agents.chat_agent_type := Agents.agent_type request;
     Agents.chat_capabilities := [];
     Agents.chat_metadata := [];
     Agents.chat_error := Some (Agents.StrOf e) |}.

(** The reply of [chat_with_agent] built from the agent's answer. *)
Definition chat_reply {LibError Value : Type}
    (request : Agents.ChatRequest Value)
    (response : Agents.AgentResponse Value) (capabilities : list string)
    : Agents.ChatResponse LibError Value :=
  {| Agents.chat_success := Agents.success response;
     Agents.chat_response := Agents.content response;
     Agents.chat_agent_type := Agents.agent_type request;
     Agents.chat_capabilities := capabilities;
     Agents.chat_metadata := Agents.metadata response;
     Agents.chat_error := option_map Agents.Given (Agents.error response) |}.

(** The agent that serves a request, once the globals are set up. *)
Definition selected {AgentObj Value : Type}
    (request : Agents.ChatRequest Value) (g : Agents.Globals AgentObj)
    : option AgentObj :=
  if String.eqb (Agents.agent_type request) "search"
  then Agents.search_agent g else Agents.chat_agent g.

(** The reply of [chat_with_agent] once [agent] is selected: what the
    execution and the capabilities give, or the failure reply for the call
    that raised. *)
Definition answer_with {AgentObj LibError Value : Type}
    (w : Agents.World AgentObj LibError Value)
    (request : Agents.ChatRequest Value) (agent : AgentObj)
    : Agents.ChatResponse LibError Value :=
  match Agents.execute w agent (Agents.message request) None with
  | inl e => chat_failure request (Agents.Lib e)
  | inr response =>
      match Agents.get_capabilities w agent with
      | inl e => chat_failure request (Agents.Lib e)
      | inr capabilities => chat_reply request response capabilities
      end
  end.

(** The replies of [search_and_summarize]: for what was raised on the
    way, and once the search agent is at hand. *)
Definition search_failure {LibError Value : Type}
    (request : Agents.SearchRequest) (err : option (Agents.errtext LibError))
    : Agents.SearchResponse LibError Value :=
  {| Agents.search_success := false;
     Agents.search_query := Agents.query request;
     Agents.summary := "";
     Agents.search_results := None;
     Agents.sources_count := 0;
     Agents.search_error := err |}.

Definition search_found {LibError Value : Type}
    (request : Agents.SearchRequest) (result : Agents.AgentResponse Value)
    (count : Z) : Agents.SearchResponse LibError Value :=
  {| Agents.search_success := true;
     Agents.search_query := Agents.query request;
     Agents.summary := Agents.content result;
     Agents.search_results := Some (Agents.metadata result);
     Agents.sources_count := count;
     Agents.search_error := None |}.

Definition search_with {AgentObj LibError Value : Type}
    (w : Agents.World AgentObj LibError Value)
    (request : Agents.SearchRequest) (agent : AgentObj)
    : Agents.SearchResponse LibError Value :=
  match Agents.execute w agent (Agents.search_prompt_of (Agents.query request))
          (Some true) with
  | inl e => search_failure request (Some (Agents.StrOf (Agents.Lib e)))
  | inr result =>
      if Agents.success result then
        match Agents.dict_get (Agents.metadata result) "tools_used" with
        | None => search_found request result 0
        | Some v =>
            match Agents.int_field w v with
            | inl e => search_failure request (Some (Agents.StrOf (Agents.Lib e)))
            | inr count => search_found request result count
            end
        end
      else search_failure request (option_map Agents.Given (Agents.error result))
  end.

(** A library for the examples: agents are named, [execute] echoes the
    prompt and reports two tools used. *)
Definition toy_world : Agents.World string string Z :=
  {| Agents.new_search_agent := inr "searcher";
     Agents.new_chat_agent := inr "chatter";
     Agents.execute := fun agent prompt _ =>
       inr {| Agents.success := true;
              Agents.content := agent ++ ": " ++ prompt;
              Agents.metadata := [("tools_used", 2)];
              Agents.error := None |};
     Agents.get_capabilities := fun agent => inr [agent];
     Agents.int_field := fun v => inr v |}.

Definition no_agents : Agents.Globals string :=
  {| Agents.search_agent := None; Agents.chat_agent := None |}.

(** ** Counting the submitted votes *)

(** How many of the submitted votes name [x] as winner, and as loser. *)
Definition won (x : string) (vs : list (Fresh * VoteRequest.t)) : Z :=
  Z.of_nat
    (List.length
       (filter (fun fv => String.eqb x (VoteRequest.winner_id (snd fv))) vs)).

Definition lost (x : string) (vs : list (Fresh * VoteRequest.t)) : Z :=
  Z.of_nat
    (List.length
       (filter (fun fv => String.eqb x (VoteRequest.loser_id (snd fv))) vs)).

(** What the four writes of a vote of [w] over [l] do to one document. *)
Definition vote_on (w l : string) (m : LLMModel.t) : LLMModel.t :=
  let m1 := if Query.by_id w m then Query.apply winner_update m else m in
  let m2 := if Query.by_id l m1 then Query.apply loser_update m1 else m1 in
  let m3 := if Query.by_id w m2 then recompute m2 else m2 in
  if Query.by_id l m3 then recompute m3 else m3.

(** ** Stored integers and the range of [int / int] *)

(** An integer as the store holds it: 64 bits, signed. *)
Definition stored_int (n : Z) : Prop := - 2 ^ 63 <= n < 2 ^ 63.

(** Python's [a / b] on integers raises [OverflowError] when the quotient
    rounds to [2^1024] or beyond, that is from the midpoint
    [2^1024 - 2^970] between the largest double and [2^1024] on. *)
Definition quotient_overflows (a b : Z) : bool :=
  (2 ^ 1025 - 2 ^ 971) * Z.abs b <=? 2 * Z.abs a.

(** ** A vote, one driver call at a time *)

(** [submit_vote] gives way to other requests at each awaited driver call.
    A running vote is the call it awaits next, with what its local
    variables hold. *)
Module Task.

Inductive t : Type :=
| InsertVote (fresh : Fresh) (vote_request : VoteRequest.t)
| IncWinner (vote_request : VoteRequest.t)
| IncLoser (vote_request : VoteRequest.t)
| FindModel (model_ids : list string)
| SetWinRate (model_id : string) (win_rate : float) (model_ids : list string)
| Returned (r : Py.exn + Reply.t).

(** The loop over the remaining ids, up to its next driver call. *)
Definition loop (model_ids : list string) : t :=
  match model_ids with
  | [] => Returned (inr (Reply.mk true "Vote recorded successfully"))
  | _ :: _ => FindModel model_ids
  end.

(** The awaited call is made, and the handler runs on to the next one. *)
Definition step (task : t) (d : Db) : t * Db :=
  match task with
  | InsertVote fresh vote_request =>
      let vote :=
        Vote.mk (uuid4 fresh) (VoteRequest.winner_id vote_request)
          (VoteRequest.loser_id vote_request) None (utcnow fresh) in
      (IncWinner vote_request, snd (db.votes.insert_one vote d))
  | IncWinner vote_request =>
      let winner_update := Query.Inc [(Query.total_votes, 1); (Query.wins, 1)] in
      (IncLoser vote_request,
       snd (db.llm_models.update_one
              (Query.by_id (VoteRequest.winner_id vote_request)) winner_update d))
  | IncLoser vote_request =>
      let loser_update := Query.Inc [(Query.total_votes, 1); (Query.losses, 1)] in
      (loop [VoteRequest.winner_id vote_request; VoteRequest.loser_id vote_request],
       snd (db.llm_models.update_one
              (Query.by_id (VoteRequest.loser_id vote_request)) loser_update d))
  | FindModel [] => (loop [], d)
  | FindModel (model_id :: rest) =>
      match Collection.find_one (Query.by_id model_id) (llm_models d) with
      | Some model_obj =>
          match LLMModel.calculate_win_rate model_obj with
          | inr win_rate => (SetWinRate model_id win_rate rest, d)
          | inl e => (Returned (inl (Py.HTTPException 500 (Py.StrOf e))), d)
          end
      | None => (loop rest, d)
      end
  | SetWinRate model_id win_rate rest =>
      (loop rest,
       snd (db.llm_models.update_one (Query.by_id model_id)
              (Query.SetWinRate win_rate) d))
  | Returned r => (Returned r, d)
  end.

(** A vote on its own, for at most [n] driver calls. *)
Fixpoint run (n : nat) (task : t) (d : Db) : t * Db :=
  match n with
  | O => (task, d)
  | S n' => let (task', d') := step task d in run n' task' d'
  end.

Fixpoint replace (i : nat) (task : t) (tasks : list t) : list t :=
  match tasks, i with
  | [], _ => []
  | _ :: rest, O => task :: rest
  | x :: rest, S i' => x :: replace i' task rest
  end.

(** Several votes under way on one store: the task named by [i] makes its
    next call. *)
Definition step_at (i : nat) (s : list t * Db) : list t * Db :=
  match nth_error (fst s) i with
  | Some task => let (task', d') := step task (snd s) in (replace i task' (fst s), d')
  | None => s
  end.

(** The calls made in the order of the schedule. *)
Definition interleave (schedule : list nat) (s : list t * Db) : list t * Db :=
  fold_left (fun s i => step_at i s) schedule s.

End Task.

(** * Properties *)

(** ** The collection operations *)

Section UpdateOne.
Context {D : Type}.
Implicit Types (p q : D -> bool) (f g : D -> D) (c : list D).

Lemma update_one_length p f c :
  List.length (Collection.update_one p f c) = List.length c.
Proof.
  induction c as [|d c IH]; simpl; [reflexivity|].
  destruct (p d); simpl; congruence.
Qed.

Lemma update_one_missing p f c :
  Collection.find_one p c = None -> Collection.update_one p f c = c.
Proof.
  unfold Collection.find_one.
  induction c as [|d c IH]; simpl; [reflexivity|].
  destruct (p d); [discriminate|]. intros H. now rewrite IH.
Qed.

Lemma update_one_compose p f g c :
  (forall d, p (g d) = p d) ->
  Collection.update_one p f (Collection.update_one p g c)
  = Collection.update_one p (fun d => f (g d)) c.
Proof.
  intros Hg. induction c as [|d c IH]; simpl; [reflexivity|].
  destruct (p d) eqn:E; simpl.
  - now rewrite Hg, E.
  - now rewrite E, IH.
Qed.

Lemma update_one_commute p q f g c :
  (forall d, p d = true -> q d = false) ->
  (forall d, p (g d) = p d) -> (forall d, q (f d) = q d) ->
  Collection.update_one p f (Collection.update_one q g c)
  = Collection.update_one q g (Collection.update_one p f c).
Proof.
  intros Hpq Hg Hf. induction c as [|d c IH]; simpl; [reflexivity|].
  destruct (p d) eqn:Ep, (q d) eqn:Eq; simpl.
  - rewrite (Hpq d Ep) in Eq. discriminate.
  - now rewrite Ep, Hf, Eq.
  - now rewrite Hg, Ep, Eq.
  - now rewrite Ep, Eq, IH.
Qed.

Lemma find_one_update_one p f c :
  (forall d, p (f d) = p d) ->
  Collection.find_one p (Collection.update_one p f c)
  = option_map f (Collection.find_one p c).
Proof.
  intros Hf. unfold Collection.find_one.
  induction c as [|d c IH]; simpl; [reflexivity|].
  destruct (p d) eqn:E; simpl.
  - now rewrite Hf, E.
  - now rewrite E.
Qed.

Lemma find_one_update_other p q f c :
  (forall d, q (f d) = q d) -> (forall d, p d = true -> q d = false) ->
  Collection.find_one q (Collection.update_one p f c) = Collection.find_one q c.
Proof.
  intros Hf Hpq. unfold Collection.find_one.
  induction c as [|d c IH]; simpl; [reflexivity|].
  destruct (p d) eqn:E; simpl.
  - now rewrite Hf, (Hpq d E).
  - now rewrite IH.
Qed.

Lemma update_one_Forall (P : D -> Prop) p f c :
  (forall d, P d -> P (f d)) ->
  Forall P c -> Forall P (Collection.update_one p f c).
Proof.
  intros Hf. induction 1 as [|d c Hd Hc IH]; simpl; [constructor|].
  destruct (p d); constructor; auto.
Qed.

Lemma Forall2_diag (R : D -> D -> Prop) c :
  (forall d, R d d) -> Forall2 R c c.
Proof. intros Hrefl. induction c; constructor; auto. Qed.

Lemma Forall2_chain (R : D -> D -> Prop) c1 c2 c3 :
  (forall x y z, R x y -> R y z -> R x z) ->
  Forall2 R c1 c2 -> Forall2 R c2 c3 -> Forall2 R c1 c3.
Proof.
  intros Htrans H12. revert c3.
  induction H12 as [|x y c1 c2 Hxy H12 IH]; intros c3 H23;
    inversion H23; subst; constructor; eauto.
Qed.

Lemma update_one_Forall2 (R : D -> D -> Prop) p f c :
  (forall d, R d d) -> (forall d, p d = true -> R d (f d)) ->
  Forall2 R c (Collection.update_one p f c).
Proof.
  intros Hrefl Hf. induction c as [|d c IH]; simpl; [constructor|].
  destruct (p d) eqn:E; constructor; auto using Forall2_diag.
Qed.

Lemma find_one_update_None p q f c :
  (forall d, q (f d) = q d) ->
  Collection.find_one q c = None ->
  Collection.find_one q (Collection.update_one p f c) = None.
Proof.
  intros Hf. unfold Collection.find_one.
  induction c as [|d c IH]; simpl; [reflexivity|].
  destruct (q d) eqn:Eq; [discriminate|]. intros H.
  destruct (p d); simpl.
  - now rewrite Hf, Eq.
  - rewrite Eq. auto.
Qed.
End UpdateOne.

(** ** Updates keep the identity of a document *)

Lemma inc_field_id c n d : LLMModel.id (Query.inc_field c n d) = LLMModel.id d.
Proof. reflexivity. Qed.

Lemma apply_id u d : LLMModel.id (Query.apply u d) = LLMModel.id d.
Proof.
  destruct u as [fields|r]; simpl; [|reflexivity].
  revert d. induction fields as [|fn fields IH]; intros d; simpl; [reflexivity|].
  now rewrite IH.
Qed.

Lemma recompute_id d : LLMModel.id (recompute d) = LLMModel.id d.
Proof. reflexivity. Qed.

Lemma by_id_apply x u d : Query.by_id x (Query.apply u d) = Query.by_id x d.
Proof. unfold Query.by_id. now rewrite apply_id. Qed.

Lemma by_id_recompute x d : Query.by_id x (recompute d) = Query.by_id x d.
Proof. reflexivity. Qed.

Lemma by_id_settle x u d : Query.by_id x (settle u d) = Query.by_id x d.
Proof. unfold settle. now rewrite by_id_recompute, by_id_apply. Qed.

Lemma by_id_other x y d : x <> y -> Query.by_id x d = true -> Query.by_id y d = false.
Proof.
  unfold Query.by_id. intros Hxy Hx. apply String.eqb_eq in Hx.
  apply String.eqb_neq. congruence.
Qed.

(** ** [calculate_win_rate] *)

Lemma calculate_win_rate_eq (m : LLMModel.t) :
  LLMModel.calculate_win_rate m
  = inr (win_rate_of (LLMModel.wins m) (LLMModel.total_votes m)).
Proof.
  unfold LLMModel.calculate_win_rate, win_rate_of, Py.truediv.
  destruct (LLMModel.total_votes m =? 0); reflexivity.
Qed.

(** ** [submit_vote] in closed form *)

Lemma update_one_found {D : Type} (p : D -> bool) (f g : D -> D) c d :
  Collection.find_one p c = Some d -> f d = g d ->
  Collection.update_one p f c = Collection.update_one p g c.
Proof.
  unfold Collection.find_one. intros Hfind Hfg.
  induction c as [|x c IH]; simpl in *; [reflexivity|].
  destruct (p x).
  - injection Hfind as ->. now rewrite Hfg.
  - now rewrite IH.
Qed.

Lemma write_back x c m :
  Collection.find_one (Query.by_id x) c = Some m ->
  Collection.update_one (Query.by_id x)
    (Query.apply
       (Query.SetWinRate (win_rate_of (LLMModel.wins m) (LLMModel.total_votes m)))) c
  = Collection.update_one (Query.by_id x) recompute c.
Proof. intros E. now apply (update_one_found _ _ _ _ m E). Qed.

Lemma submit_vote_eq fresh vote_request d :
  submit_vote fresh vote_request d
  = (inr vote_recorded,
     {| llm_models :=
          voted (VoteRequest.winner_id vote_request)
            (VoteRequest.loser_id vote_request) (llm_models d);
        votes := votes d ++ [vote_of fresh vote_request] |}).
Proof.
  destruct vote_request as [w l]. destruct d as [c vs].
  cbv [submit_vote voted try_except bind for_ ret lift
       db.votes.insert_one db.llm_models.update_one db.llm_models.find_one
       db.on_votes db.on_models db.read
       llm_models votes VoteRequest.winner_id VoteRequest.loser_id].
  fold winner_update loser_update.
  set (c2 := Collection.update_one (Query.by_id l) _ _).
  unfold vote_recorded, vote_of, Collection.insert_one; cbn [VoteRequest.winner_id VoteRequest.loser_id].
  destruct (Collection.find_one (Query.by_id w) c2) as [m|] eqn:E1.
  - rewrite calculate_win_rate_eq.
    rewrite (write_back _ _ _ E1).
    destruct (Collection.find_one (Query.by_id l) _) as [m'|] eqn:E2.
    + rewrite calculate_win_rate_eq.
      now rewrite (write_back _ _ _ E2).
    + now rewrite (update_one_missing _ recompute _ E2).
  - rewrite (update_one_missing _ recompute _ E1).
    destruct (Collection.find_one (Query.by_id l) _) as [m'|] eqn:E2.
    + rewrite calculate_win_rate_eq.
      now rewrite (write_back _ _ _ E2).
    + now rewrite (update_one_missing _ recompute _ E2).
Qed.

(** ** The catalog after a vote *)

Lemma recompute_recompute d : recompute (recompute d) = recompute d.
Proof. reflexivity. Qed.

Lemma voted_distinct w l c :
  w <> l ->
  voted w l c
  = Collection.update_one (Query.by_id l) (settle loser_update)
      (Collection.update_one (Query.by_id w) (settle winner_update) c).
Proof.
  intros Hwl. unfold voted, settle.
  rewrite (update_one_commute (Query.by_id w) (Query.by_id l) recompute
             (Query.apply loser_update)).
  - now rewrite !update_one_compose by (intro; apply by_id_apply).
  - intros d. now apply by_id_other.
  - intro; apply by_id_apply.
  - intro; apply by_id_recompute.
Qed.

Lemma voted_same a c :
  voted a a c
  = Collection.update_one (Query.by_id a)
      (fun d => settle loser_update (Query.apply winner_update d)) c.
Proof.
  unfold voted, settle.
  rewrite !update_one_compose;
    try (intro; rewrite ?by_id_recompute, ?by_id_apply; reflexivity).
  reflexivity.
Qed.

Lemma voted_winner_missing w l c :
  Collection.find_one (Query.by_id w) c = None ->
  voted w l c = Collection.update_one (Query.by_id l) (settle loser_update) c.
Proof.
  intros Hw. unfold voted, settle.
  rewrite (update_one_missing _ _ c Hw).
  rewrite (update_one_missing (Query.by_id w)).
  - now rewrite update_one_compose by (intro; apply by_id_apply).
  - apply find_one_update_None; [intro; apply by_id_apply | exact Hw].
Qed.

Lemma voted_loser_missing w l c :
  Collection.find_one (Query.by_id l) c = None ->
  voted w l c = Collection.update_one (Query.by_id w) (settle winner_update) c.
Proof.
  intros Hl. unfold voted, settle.
  assert (H1 : Collection.find_one (Query.by_id l)
                 (Collection.update_one (Query.by_id w)
                    (Query.apply winner_update) c) = None)
    by (apply find_one_update_None; [intro; apply by_id_apply | exact Hl]).
  rewrite (update_one_missing _ _ _ H1).
  rewrite update_one_compose by (intro; apply by_id_apply).
  apply update_one_missing.
  apply find_one_update_None; [intro; apply by_id_settle | exact Hl].
Qed.

(** The counters after an update and the write of the win rate. *)
Lemma settle_winner_counters d :
  LLMModel.total_votes (settle winner_update d) = LLMModel.total_votes d + 1
  /\ LLMModel.wins (settle winner_update d) = LLMModel.wins d + 1
  /\ LLMModel.losses (settle winner_update d) = LLMModel.losses d.
Proof. repeat split. Qed.

Lemma settle_loser_counters d :
  LLMModel.total_votes (settle loser_update d) = LLMModel.total_votes d + 1
  /\ LLMModel.wins (settle loser_update d) = LLMModel.wins d
  /\ LLMModel.losses (settle loser_update d) = LLMModel.losses d + 1.
Proof. repeat split. Qed.

Lemma settle_win_rate u d :
  LLMModel.win_rate (settle u d)
  = win_rate_of (LLMModel.wins (settle u d)) (LLMModel.total_votes (settle u d)).
Proof. reflexivity. Qed.

(** ** [calculate_win_rate], and the vote of a model against itself *)




(** Outside that range the quotient does overflow: a model object with
    [wins = 10**400] and [total_votes = 1] is none that the store holds. *)
Example huge_quotient_overflows :
  quotient_overflows (10 ^ 400) 1 = true /\ ~ stored_int (10 ^ 400).
Proof.
  split; [vm_compute; reflexivity|].
  unfold stored_int. intros [_ H]. vm_compute in H. discriminate.
Qed.

(** C10: a vote whose winner and loser are one and the same existing model
    raises that model's [total_votes] by 2, its [wins] by 1 and its [losses]
    by 1, appends one record to the ledger, and keeps
    [total_votes = wins + losses] on that model. *)
Theorem self_vote_counts_twice fresh a d m :
  Collection.find_one (Query.by_id a) (llm_models d) = Some m ->
  let d' := snd (submit_vote fresh (VoteRequest.mk a a) d) in
  exists m',
    Collection.find_one (Query.by_id a) (llm_models d') = Some m'
    /\ LLMModel.total_votes m' = LLMModel.total_votes m + 2
    /\ LLMModel.wins m' = LLMModel.wins m + 1
    /\ LLMModel.losses m' = LLMModel.losses m + 1
    /\ votes d' = (votes d ++ [vote_of fresh (VoteRequest.mk a a)])%list
    /\ (LLMModel.total_votes m = LLMModel.wins m + LLMModel.losses m ->
        LLMModel.total_votes m' = LLMModel.wins m' + LLMModel.losses m').
Proof.
  intros Hfind d'. subst d'. rewrite submit_vote_eq. cbn [snd llm_models votes].
  cbn [VoteRequest.winner_id VoteRequest.loser_id].
  rewrite voted_same.
  rewrite find_one_update_one, Hfind
    by (intro; rewrite by_id_settle; apply by_id_apply).
  eexists. split; [reflexivity|].
  cbn. repeat split; lia.
Qed.

Lemma self_vote_counts_twice_witness :
  exists m',
    Collection.find_one (Query.by_id "m-0")
      (llm_models
         (snd (submit_vote (fresh_of "v" 0) (VoteRequest.mk "m-0" "m-0") seeded_db)))
    = Some m'
    /\ LLMModel.total_votes m' = 2
    /\ LLMModel.wins m' = 1
    /\ LLMModel.losses m' = 1.
Proof.
  destruct (self_vote_counts_twice (fresh_of "v" 0) "m-0" seeded_db _ eq_refl)
    as (m' & Hm' & Ht & Hw & Hl & _).
  exists m'. repeat split; assumption.
Defined.

(** C1, as the code has it: a submission with [winner_id = loser_id] is
    accepted.  It returns the success reply and appends one record to the
    ledger; no model with another id changes, and when no model has that id
    the catalog is left as it was. *)
Theorem self_vote_accepted fresh a d :
  let r := submit_vote fresh (VoteRequest.mk a a) d in
  fst r = inr vote_recorded
  /\ votes (snd r) = (votes d ++ [vote_of fresh (VoteRequest.mk a a)])%list
  /\ Forall2 (fun m m' => LLMModel.id m <> a -> m' = m)
       (llm_models d) (llm_models (snd r))
  /\ (Collection.find_one (Query.by_id a) (llm_models d) = None ->
      llm_models (snd r) = llm_models d).
Proof.
  intros r. subst r. rewrite submit_vote_eq.
  cbn [fst snd llm_models votes VoteRequest.winner_id VoteRequest.loser_id].
  repeat split.
  - rewrite voted_same. apply update_one_Forall2; [reflexivity|].
    intros m Hm Hne. apply String.eqb_eq in Hm. contradiction.
  - intros Hnone. rewrite voted_same. now apply update_one_missing.
Qed.

(** C1, as the claim has it, fails on the seeded catalog: the vote of a
    model against itself is answered with success, the ledger grows from
    none to one record and the model's [total_votes] goes from 0 to 2. *)
Lemma self_vote_is_recorded :
  let d := seeded_db in
  let r := submit_vote (fresh_of "v" 0) (VoteRequest.mk "m-0" "m-0") d in
  fst r = inr vote_recorded
  /\ List.length (votes d) = 0%nat
  /\ List.length (votes (snd r)) = 1%nat
  /\ option_map LLMModel.total_votes
       (Collection.find_one (Query.by_id "m-0") (llm_models d)) = Some 0
  /\ option_map LLMModel.total_votes
       (Collection.find_one (Query.by_id "m-0") (llm_models (snd r))) = Some 2.
Proof. vm_compute. repeat split. Qed.

(** ** The other handlers in closed form *)

Lemma seed_models_eq fresh d :
  seed_models fresh d
  = (inr (Reply.mk true "Seeded 8 LLM models"),
     {| llm_models := seeded_catalog fresh; votes := votes d |}).
Proof. destruct d. reflexivity. Qed.


Lemma get_leaderboard_eq d :
  get_leaderboard d
  = (inr (Collection.to_list 1000
            (Collection.sort (Query.leb leaderboard_keys) (llm_models d))), d).
Proof. reflexivity. Qed.

Lemma get_battle_stats_eq d :
  get_battle_stats d
  = (inr (Stats.mk
            (Collection.count_documents (votes d))
            (Collection.count_documents (llm_models d))
            (option_map LLMModel.name
               (List.hd_error
                  (Collection.sort (Query.leb [(Query.Int Query.wins, -1)])
                     (llm_models d))))
            (Collection.count_documents (votes d))), d).
Proof.
  unfold get_battle_stats, try_except, bind, ret.
  unfold db.votes.count_documents, db.llm_models.count_documents,
    db.llm_models.to_list, db.llm_models.limit, db.llm_models.sort,
    db.llm_models.find, db.read.
  unfold Collection.to_list, Collection.limit.
  destruct (Collection.sort _ (llm_models d)); reflexivity.
Qed.

Lemma get_battle_db rand d : snd (get_battle rand d) = d.
Proof.
  unfold get_battle, try_except, bind, ret, raise, lift, internal_error,
    db.llm_models.to_list, db.read.
  destruct (_ <? 2)%nat; [reflexivity|].
  destruct (Random.sample _ 2 rand) as [e|sel]; [reflexivity|].
  destruct (Py.getitem sel 0); [reflexivity|].
  destruct (Py.getitem sel 1); reflexivity.
Qed.

(** Every route but the two writing ones leaves the store as it was. *)
Lemma reads_keep_db d :
  snd (get_all_models d) = d
  /\ (forall rand, snd (get_battle rand d) = d)
  /\ snd (get_leaderboard d) = d
  /\ snd (get_battle_stats d) = d.
Proof.
  repeat split; try reflexivity.
  intros rand. apply get_battle_db.
Qed.

(** ** Win rates and counters along the life of the store *)

Lemma settle_current u d : win_rate_current (settle u d).
Proof. apply settle_win_rate. Qed.

Lemma seeded_current fresh : Forall win_rate_current (seeded_catalog fresh).
Proof. unfold seeded_catalog. simpl. repeat constructor. Qed.

Lemma voted_current w l c :
  Forall win_rate_current c -> Forall win_rate_current (voted w l c).
Proof.
  intros Hc. destruct (String.eqb_spec w l) as [->|Hwl].
  - rewrite voted_same. apply update_one_Forall; [|exact Hc].
    intros d _. apply settle_current.
  - rewrite voted_distinct by exact Hwl.
    repeat apply update_one_Forall; try exact Hc;
      intros d _; apply settle_current.
Qed.

Lemma reachable_current d : reachable d -> Forall win_rate_current (llm_models d).
Proof.
  induction 1 as [|fresh d _ IH|fresh vr d _ IH|d _ IH|rand d _ IH|d _ IH|d _ IH].
  - constructor.
  - rewrite seed_models_eq. apply seeded_current.
  - rewrite submit_vote_eq. now apply voted_current.
  - exact IH.
  - now rewrite get_battle_db.
  - exact IH.
  - now rewrite get_battle_stats_eq.
Qed.

Lemma current_settled m : win_rate_current m -> win_rate_settled m.
Proof.
  unfold win_rate_current, win_rate_settled, win_rate_of. intros ->. split.
  - intros Hpos. destruct (LLMModel.total_votes m =? 0) eqn:E; [|reflexivity].
    apply Z.eqb_eq in E. lia.
  - intros ->. reflexivity.
Qed.

(** C2, as the code has it: in every state of the store that the routes
    produce when the requests are handled one at a time, every model's
    [win_rate] is [round(wins / total_votes * 100, 1)] when
    [total_votes > 0], and [0.0] when [total_votes == 0]. *)
Theorem win_rate_matches_counters d :
  reachable d -> Forall win_rate_settled (llm_models d).
Proof.
  intros Hd. apply reachable_current in Hd.
  eapply Forall_impl; [|exact Hd]. apply current_settled.
Qed.

Lemma win_rate_matches_counters_witness :
  Forall win_rate_settled
    (llm_models (snd (submit_vote (fresh_of "v" 0) vote_0_beats_1 seeded_db))).
Proof.
  apply win_rate_matches_counters.
  apply reach_submit_vote, reach_seed_models, reach_empty.
Defined.

Lemma counters_le_refl m : counters_le m m.
Proof. unfold counters_le. repeat split; lia. Qed.

Lemma counters_le_trans m1 m2 m3 :
  counters_le m1 m2 -> counters_le m2 m3 -> counters_le m1 m3.
Proof. unfold counters_le. intros (?&?&?&?) (?&?&?&?). repeat split; try lia. congruence. Qed.

Lemma settle_counters_ok u d :
  u = winner_update \/ u = loser_update ->
  counters_ok d -> counters_ok (settle u d).
Proof.
  unfold counters_ok. intros [-> | ->] (Hsum & Ht & Hw & Hl); cbn; lia.
Qed.

Lemma settle_counters_le u d :
  u = winner_update \/ u = loser_update -> counters_le d (settle u d).
Proof. unfold counters_le. intros [-> | ->]; cbn; repeat split; lia. Qed.

Lemma apply_winner_counters_ok_le d :
  counters_ok d ->
  counters_ok (settle loser_update (Query.apply winner_update d))
  /\ counters_le d (settle loser_update (Query.apply winner_update d)).
Proof.
  unfold counters_ok, counters_le. intros (Hsum & Ht & Hw & Hl).
  cbn. repeat split; lia.
Qed.

Lemma voted_counters_ok w l c :
  Forall counters_ok c -> Forall counters_ok (voted w l c).
Proof.
  intros Hc. destruct (String.eqb_spec w l) as [->|Hwl].
  - rewrite voted_same. apply update_one_Forall; [|exact Hc].
    intros d Hd. now apply apply_winner_counters_ok_le.
  - rewrite voted_distinct by exact Hwl.
    repeat apply update_one_Forall; try exact Hc;
      intros d Hd; apply settle_counters_ok; auto.
Qed.

Lemma voted_counters_le w l c : Forall2 counters_le c (voted w l c).
Proof.
  destruct (String.eqb_spec w l) as [->|Hwl].
  - rewrite voted_same. apply update_one_Forall2; [apply counters_le_refl|].
    intros d _. unfold counters_le. cbn. repeat split; lia.
  - rewrite voted_distinct by exact Hwl.
    apply Forall2_chain
      with (c2 := Collection.update_one (Query.by_id w) (settle winner_update) c);
      [exact counters_le_trans| |];
      (apply update_one_Forall2;
       [apply counters_le_refl | intros d _; apply settle_counters_le; auto]).
Qed.

Lemma run_votes_counters vs d :
  Forall counters_ok (llm_models d) ->
  Forall counters_ok (llm_models (run_votes vs d))
  /\ Forall2 counters_le (llm_models d) (llm_models (run_votes vs d)).
Proof.
  revert d. induction vs as [|[fresh vr] vs IH]; intros d Hd; simpl.
  - split; [exact Hd | apply Forall2_diag, counters_le_refl].
  - rewrite submit_vote_eq.
    destruct (IH {| llm_models := voted (VoteRequest.winner_id vr)
                                    (VoteRequest.loser_id vr) (llm_models d);
                    votes := (votes d ++ [vote_of fresh vr])%list |})
      as [Hok Hle].
    + cbn. now apply voted_counters_ok.
    + split; [exact Hok|].
      eapply Forall2_chain; [exact counters_le_trans| |exact Hle].
      cbn. apply voted_counters_le.
Qed.

(** C3: start from a catalog whose counters add up and are not negative
    (a seeded one, say) and submit votes one after the other.  After each
    vote every model of the catalog, the winner and the loser among them,
    has [total_votes = wins + losses] with no counter below zero, and no
    counter is below its value before that vote or at the start. *)
Theorem votes_keep_counters d vs fresh vote_request :
  Forall counters_ok (llm_models d) ->
  let before := run_votes vs d in
  let after := snd (submit_vote fresh vote_request before) in
  Forall counters_ok (llm_models after)
  /\ Forall2 counters_le (llm_models before) (llm_models after)
  /\ Forall2 counters_le (llm_models d) (llm_models after).
Proof.
  intros Hd before after.
  destruct (run_votes_counters vs d Hd) as [Hok Hle]. fold before in Hok, Hle.
  subst after. rewrite submit_vote_eq. cbn [snd llm_models].
  split; [|split].
  - now apply voted_counters_ok.
  - apply voted_counters_le.
  - eapply Forall2_chain; [exact counters_le_trans|exact Hle|].
    apply voted_counters_le.
Qed.

Lemma seeded_counters_ok fresh : Forall counters_ok (seeded_catalog fresh).
Proof.
  unfold seeded_catalog. simpl.
  repeat constructor; unfold counters_ok; cbn; lia.
Qed.

Lemma votes_keep_counters_witness :
  let d := seeded_db in
  let before := run_votes [(fresh_of "v" 0, vote_0_beats_1)] d in
  let after := snd (submit_vote (fresh_of "v" 1) (VoteRequest.mk "m-2" "m-0") before) in
  Forall counters_ok (llm_models after)
  /\ Forall2 counters_le (llm_models before) (llm_models after)
  /\ Forall2 counters_le (llm_models d) (llm_models after).
Proof.
  apply (votes_keep_counters seeded_db [(fresh_of "v" 0, vote_0_beats_1)]
           (fresh_of "v" 1) (VoteRequest.mk "m-2" "m-0")).
  exact (seeded_counters_ok (fresh_of "m")).
Defined.

(** C4: [seed_models] answers with success and leaves a catalog made of the
    seed models alone, whatever the catalog held before, each with
    [total_votes = wins = losses = 0] and [win_rate = 0.0]; the ledger is
    the one from before, so [get_battle_stats] still reports its count as
    [total_votes]. *)
Theorem seed_models_keeps_ledger fresh d :
  let r := seed_models fresh d in
  fst r = inr (Reply.mk true "Seeded 8 LLM models")
  /\ llm_models (snd r)
     = map (fun km => Seed.to_model (fresh (fst km)) (snd km))
         (enumerate 0 Seed.models)
  /\ map LLMModel.name (llm_models (snd r)) = map Seed.name Seed.models
  /\ Forall (fun m => LLMModel.total_votes m = 0 /\ LLMModel.wins m = 0
                      /\ LLMModel.losses m = 0 /\ LLMModel.win_rate m = 0%float)
       (llm_models (snd r))
  /\ votes (snd r) = votes d
  /\ exists st,
       fst (get_battle_stats (snd r)) = inr st
       /\ Stats.total_votes st = Z.of_nat (List.length (votes d))
       /\ (votes d <> [] -> Stats.total_votes st <> 0).
Proof.
  intros r. subst r. rewrite seed_models_eq. cbn [fst snd llm_models votes].
  repeat split.
  - cbn. repeat constructor.
  - rewrite get_battle_stats_eq. eexists. split; [reflexivity|].
    cbn [Stats.total_votes votes]. split; [reflexivity|].
    unfold Collection.count_documents. destruct (votes d); [congruence|].
    intros _. simpl. lia.
Qed.

(** C6: [submit_vote] answers with the same success reply and appends the
    vote to the ledger whatever the two ids are.  When the winner's id
    matches no model, the catalog changes as it does for the loser alone;
    when the loser's id matches none, as for the winner alone; when neither
    matches, not at all. *)
Theorem submit_vote_skips_missing fresh vote_request d :
  let w := VoteRequest.winner_id vote_request in
  let l := VoteRequest.loser_id vote_request in
  let r := submit_vote fresh vote_request d in
  fst r = inr (Reply.mk true "Vote recorded successfully")
  /\ votes (snd r) = (votes d ++ [vote_of fresh vote_request])%list
  /\ (Collection.find_one (Query.by_id w) (llm_models d) = None ->
      llm_models (snd r)
      = Collection.update_one (Query.by_id l) (settle loser_update) (llm_models d))
  /\ (Collection.find_one (Query.by_id l) (llm_models d) = None ->
      llm_models (snd r)
      = Collection.update_one (Query.by_id w) (settle winner_update) (llm_models d))
  /\ (Collection.find_one (Query.by_id w) (llm_models d) = None ->
      Collection.find_one (Query.by_id l) (llm_models d) = None ->
      llm_models (snd r) = llm_models d).
Proof.
  intros w l r. subst w l r. rewrite submit_vote_eq.
  cbn [fst snd llm_models votes]. repeat split.
  - apply voted_winner_missing.
  - apply voted_loser_missing.
  - intros Hw Hl. rewrite voted_winner_missing by exact Hw.
    now apply update_one_missing.
Qed.

(** ** Sorting *)

Section Sort.
Context {D : Type} (leb : D -> D -> bool).
Hypothesis leb_total : forall a b, leb a b = false -> leb b a = true.

Let before (a b : D) : Prop := leb a b = true.

Lemma insert_sorted_perm d l :
  Permutation (Collection.insert_sorted leb d l) (d :: l).
Proof.
  induction l as [|x l IH]; simpl; [reflexivity|].
  destruct (leb d x); [reflexivity|].
  rewrite IH. apply perm_swap.
Qed.

Lemma sort_perm l : Permutation (Collection.sort leb l) l.
Proof.
  induction l as [|d l IH]; simpl; [constructor|].
  rewrite insert_sorted_perm. now constructor.
Qed.

Lemma insert_sorted_hd d x l :
  before x d -> HdRel before x l ->
  HdRel before x (Collection.insert_sorted leb d l).
Proof.
  intros Hxd Hx. destruct l as [|y l]; simpl; [now constructor|].
  destruct (leb d y); constructor; [exact Hxd|].
  now inversion Hx.
Qed.

Lemma insert_sorted_sorted d l :
  Sorted before l -> Sorted before (Collection.insert_sorted leb d l).
Proof.
  induction 1 as [|x l Hl IH Hx]; simpl.
  - repeat constructor.
  - destruct (leb d x) eqn:E.
    + repeat constructor; assumption.
    + constructor; [exact IH|].
      apply insert_sorted_hd; [now apply leb_total | exact Hx].
Qed.

Lemma sort_sorted l : Sorted before (Collection.sort leb l).
Proof.
  induction l as [|d l IH]; simpl; [constructor|].
  now apply insert_sorted_sorted.
Qed.
End Sort.

Lemma leaderboard_leb_spec a b :
  Query.leb leaderboard_keys a b = true <-> ranks_before a b.
Proof.
  unfold ranks_before, leaderboard_keys. cbn [Query.leb Query.compare_field Query.get].
  destruct (Z.compare_spec (LLMModel.wins a) (LLMModel.wins b)) as [Hw|Hw|Hw].
  - destruct (Z.compare_spec (Py.order_key (LLMModel.win_rate a))
                (Py.order_key (LLMModel.win_rate b))) as [Hr|Hr|Hr];
      cbn; split; try discriminate; try lia; intros _; try reflexivity; right; lia.
  - cbn. split; [discriminate | lia].
  - cbn. split; [intros _; left; lia | reflexivity].
Qed.

Lemma wins_leb_spec a b :
  Query.leb [(Query.Int Query.wins, -1)] a b = true
  <-> LLMModel.wins b <= LLMModel.wins a.
Proof.
  cbn [Query.leb Query.compare_field Query.get].
  destruct (Z.compare_spec (LLMModel.wins a) (LLMModel.wins b));
    cbn; split; try discriminate; try lia; reflexivity.
Qed.

Lemma query_leb_total keys a b :
  Query.leb keys a b = false -> Query.leb keys b a = true.
Proof.
  induction keys as [|[f dir] keys IH]; simpl; [discriminate|].
  assert (Hflip : Query.compare_field f b a = CompOpp (Query.compare_field f a b)).
  { destruct f as [c|]; simpl; apply Z.compare_antisym. }
  rewrite Hflip.
  destruct (Query.compare_field f a b); simpl; auto;
    destruct (0 <? dir); simpl; congruence.
Qed.

Lemma ranks_before_trans a b c :
  ranks_before a b -> ranks_before b c -> ranks_before a c.
Proof. unfold ranks_before. lia. Qed.

Lemma leaderboard_strongly_sorted c :
  StronglySorted ranks_before (Collection.sort (Query.leb leaderboard_keys) c).
Proof.
  apply Sorted_StronglySorted; [exact ranks_before_trans|].
  eapply Sorted_ind with (P := Sorted ranks_before);
    [constructor | | apply (sort_sorted _ (query_leb_total leaderboard_keys))].
  intros a l _ IH Ha. constructor; [exact IH|].
  destruct Ha; constructor. now apply leaderboard_leb_spec.
Qed.

(** C7, as the code has it: the leaderboard is the catalog sorted by [wins]
    descending, then by [win_rate] descending, cut after its first 1000
    models; a catalog of at most 1000 models is returned whole. *)
Theorem leaderboard_sorted_first_1000 d :
  exists ranked,
    Permutation ranked (llm_models d)
    /\ StronglySorted ranks_before ranked
    /\ get_leaderboard d = (inr (firstn 1000 ranked), d)
    /\ ((List.length (llm_models d) <= 1000)%nat -> firstn 1000 ranked = ranked).
Proof.
  exists (Collection.sort (Query.leb leaderboard_keys) (llm_models d)).
  split; [apply sort_perm|]. split; [apply leaderboard_strongly_sorted|].
  split; [apply get_leaderboard_eq|].
  intros Hlen. apply firstn_all2.
  now rewrite (Permutation_length (sort_perm _ (llm_models d))).
Qed.

(** C7, as the claim has it, fails on a catalog of 1001 models with 0 to
    1000 wins: the leaderboard holds 1000 of them, and the model without a
    win, id [x-0], is not among them. *)
Lemma leaderboard_drops_a_model :
  exists board,
    fst (get_leaderboard crowded_db) = inr board
    /\ List.length (llm_models crowded_db) = 1001%nat
    /\ List.length board = 1000%nat
    /\ existsb (Query.by_id "x-0") (llm_models crowded_db) = true
    /\ existsb (Query.by_id "x-0") board = false.
Proof.
  eexists. split; [rewrite get_leaderboard_eq; reflexivity|].
  repeat split; vm_compute; reflexivity.
Qed.

(** C8: [get_battle_stats] reports the number of ledger records both as
    [total_votes] and as [battles_completed]; [top_model] is absent on an
    empty catalog and otherwise the name of a model of the catalog that no
    model exceeds in [wins]. *)
Theorem stats_counts_and_top d :
  exists st,
    get_battle_stats d = (inr st, d)
    /\ Stats.total_votes st = Z.of_nat (List.length (votes d))
    /\ Stats.battles_completed st = Z.of_nat (List.length (votes d))
    /\ Stats.total_models st = Z.of_nat (List.length (llm_models d))
    /\ (llm_models d = [] -> Stats.top_model st = None)
    /\ (llm_models d <> [] ->
        exists m,
          In m (llm_models d)
          /\ Stats.top_model st = Some (LLMModel.name m)
          /\ forall m', In m' (llm_models d) ->
                        LLMModel.wins m' <= LLMModel.wins m).
Proof.
  eexists. split; [apply get_battle_stats_eq|]. cbn [Stats.total_votes
    Stats.battles_completed Stats.total_models Stats.top_model].
  repeat split.
  - intros ->. reflexivity.
  - intros Hne.
    set (keys := [(Query.Int Query.wins, -1)]).
    pose proof (sort_perm (Query.leb keys) (llm_models d)) as Hperm.
    pose proof (sort_sorted _ (query_leb_total keys) (llm_models d)) as Hsorted.
    destruct (Collection.sort (Query.leb keys) (llm_models d)) as [|m rest] eqn:E.
    + apply Permutation_nil in Hperm. contradiction.
    + exists m. split; [|split; [reflexivity|]].
      * apply (Permutation_in _ Hperm). now left.
      * intros m' Hm'.
        apply (Permutation_in _ (Permutation_sym Hperm)) in Hm'.
        apply Sorted_StronglySorted in Hsorted.
        -- apply StronglySorted_inv in Hsorted. destruct Hsorted as [_ Hall].
           destruct Hm' as [<-|Hm']; [lia|].
           rewrite Forall_forall in Hall. now apply wins_leb_spec, Hall.
        -- intros x y z Hxy Hyz.
           apply wins_leb_spec in Hxy, Hyz. apply wins_leb_spec. lia.
Qed.

(** ** [random.sample] of two *)

Section Sample.
Context {A : Type}.
Implicit Types (l population : list A).

Lemma getitem_lt l i :
  (i < List.length l)%nat ->
  exists x, nth_error l i = Some x /\ Py.getitem l i = inr x.
Proof.
  intros Hi. unfold Py.getitem.
  destruct (nth_error l i) as [x|] eqn:E; [now exists x|].
  apply nth_error_None in E. lia.
Qed.

Lemma setitem_lt l i y :
  (i < List.length l)%nat ->
  exists l',
    Py.setitem l i y = inr l'
    /\ List.length l' = List.length l
    /\ forall k, nth_error l' k = if (k =? i)%nat then Some y else nth_error l k.
Proof.
  revert i. induction l as [|a l IH]; intros i Hi; simpl in Hi; [lia|].
  destruct i as [|i]; simpl.
  - eexists. split; [reflexivity|]. split; [reflexivity|].
    intros [|k]; reflexivity.
  - destruct (IH i) as (l' & -> & Hlen & Hnth); [lia|].
    eexists. split; [reflexivity|]. split; [simpl; now rewrite Hlen|].
    intros [|k]; simpl; [reflexivity | apply Hnth].
Qed.

(** The two items drawn, by the draws: the first sits at the first draw; the
    second at the second draw, or at the end when the draws coincide. *)
Lemma sample_two_eq population rand :
  let n := List.length population in
  let j1 := Random.randbelow n (rand 0%nat) in
  let j2 := Random.randbelow (n - 1) (rand 1%nat) in
  (2 <= n)%nat ->
  exists x y,
    nth_error population j1 = Some x
    /\ nth_error population (if (j2 =? j1)%nat then (n - 1)%nat else j2) = Some y
    /\ Random.sample population 2 rand = inr [x; y].
Proof.
  intros n j1 j2 Hn. unfold Random.sample. fold n.
  destruct (Nat.ltb_spec n 2) as [Hlt|_]; [lia|].
  cbn [Random.sample_loop]. fold j1.
  assert (Hj1 : (j1 < n)%nat) by (apply Nat.mod_upper_bound; lia).
  assert (Hj2 : (j2 < n - 1)%nat) by (apply Nat.mod_upper_bound; lia).
  destruct (getitem_lt population j1 Hj1) as (x & Hx & Ex).
  destruct (getitem_lt population (n - 1)) as (y1 & Hy1 & Ey1); [lia|].
  destruct (setitem_lt population j1 y1 Hj1) as (pool' & Epool' & Hlen & Hpool').
  rewrite Ex; cbn [Py.and_then]. rewrite Ey1; cbn [Py.and_then].
  rewrite Epool'; cbn [Py.and_then].
  destruct (getitem_lt pool' j2) as (x2 & Hx2 & Ex2); [lia|].
  destruct (getitem_lt pool' (n - 1 - 1)) as (y2 & Hy2 & Ey2); [lia|].
  destruct (setitem_lt pool' j2 y2) as (pool'' & Epool'' & _ & _); [lia|].
  fold j2. rewrite Ex2; cbn [Py.and_then]. rewrite Ey2; cbn [Py.and_then].
  rewrite Epool''; cbn [Py.and_then].
  rewrite Hpool' in Hx2.
  exists x, x2. repeat split; [exact Hx|].
  destruct (j2 =? j1)%nat; congruence.
Qed.

(** Two items are drawn from two different places of the population. *)
Lemma sample_two population rand :
  (2 <= List.length population)%nat ->
  exists i j x y,
    i <> j
    /\ nth_error population i = Some x
    /\ nth_error population j = Some y
    /\ Random.sample population 2 rand = inr [x; y].
Proof.
  intros Hn.
  destruct (sample_two_eq population rand Hn) as (x & y & Hx & Hy & Hs).
  set (n := List.length population) in *.
  set (j1 := Random.randbelow n (rand 0%nat)) in *.
  set (j2 := Random.randbelow (n - 1) (rand 1%nat)) in *.
  assert (Hj1 : (j1 < n)%nat) by (apply Nat.mod_upper_bound; lia).
  assert (Hj2 : (j2 < n - 1)%nat) by (apply Nat.mod_upper_bound; lia).
  exists j1, (if (j2 =? j1)%nat then (n - 1)%nat else j2), x, y.
  repeat split; try assumption.
  destruct (Nat.eqb_spec j2 j1); lia.
Qed.

(** And any two different places are drawn by some generator. *)
Lemma sample_two_any population i j x y :
  i <> j ->
  nth_error population i = Some x -> nth_error population j = Some y ->
  exists rand, Random.sample population 2 rand = inr [x; y].
Proof.
  intros Hij Hx Hy.
  set (n := List.length population).
  assert (Hi : (i < n)%nat) by (apply nth_error_Some; congruence).
  assert (Hj : (j < n)%nat) by (apply nth_error_Some; congruence).
  exists (fun k => match k with
                   | O => i
                   | _ => if (j =? n - 1)%nat then i else j
                   end).
  match goal with |- Random.sample _ _ ?r = _ => set (rand := r) end.
  destruct (sample_two_eq population rand) as (x' & y' & Hx' & Hy' & ->); [fold n; lia|].
  fold n in Hx', Hy'. unfold Random.randbelow in Hx', Hy'. cbn [rand] in Hx', Hy'.
  rewrite (Nat.mod_small i n Hi) in Hx', Hy'.
  destruct (Nat.eqb_spec j (n - 1)) as [Hlast|Hnot].
  - rewrite (Nat.mod_small i (n - 1)) in Hy' by lia.
    rewrite Nat.eqb_refl in Hy'. rewrite <- Hlast in Hy'. congruence.
  - rewrite (Nat.mod_small j (n - 1)) in Hy' by lia.
    destruct (Nat.eqb_spec j i); [congruence|]. congruence.
Qed.
End Sample.

(** C5: [get_battle] leaves the store as it was.  On a catalog of fewer
    than 2 models it fails with the error of the check on the number of
    models; otherwise it returns the models at two different places of the
    catalog, whose ids differ as long as no two models of the catalog share
    an id. *)
Theorem get_battle_draws_two rand d :
  snd (get_battle rand d) = d
  /\ ((List.length (llm_models d) < 2)%nat ->
      fst (get_battle rand d) = inl need_two_models)
  /\ ((2 <= List.length (llm_models d))%nat ->
      exists i j m1 m2,
        i <> j
        /\ nth_error (llm_models d) i = Some m1
        /\ nth_error (llm_models d) j = Some m2
        /\ fst (get_battle rand d) = inr (Battle.mk m1 m2)
        /\ (NoDup (map LLMModel.id (llm_models d)) ->
            LLMModel.id m1 <> LLMModel.id m2)).
Proof.
  split; [apply get_battle_db|].
  unfold get_battle, try_except, bind, ret, raise, lift, internal_error,
    db.llm_models.to_list, db.llm_models.find, db.read, Collection.to_list.
  set (models := firstn 1000 (llm_models d)).
  assert (Hlen : List.length models = Nat.min 1000 (List.length (llm_models d)))
    by apply length_firstn.
  split.
  - intros Hfew. destruct (Nat.ltb_spec (List.length models) 2); [reflexivity|lia].
  - intros Hmany. destruct (Nat.ltb_spec (List.length models) 2) as [|Htwo]; [lia|].
    destruct (sample_two models rand Htwo) as (i & j & m1 & m2 & Hij & Hi & Hj & ->).
    cbn [Py.getitem nth_error fst].
    assert (Hin : forall k m, nth_error models k = Some m ->
                              nth_error (llm_models d) k = Some m).
    { intros k m. subst models. rewrite nth_error_firstn.
      destruct (k <? 1000)%nat; [auto|discriminate]. }
    exists i, j, m1, m2. repeat split; auto.
    intros Hnodup Hids.
    apply Hij. apply (proj1 (NoDup_nth_error _) Hnodup).
    + rewrite length_map. apply nth_error_Some. rewrite (Hin _ _ Hi). discriminate.
    + rewrite !nth_error_map, (Hin _ _ Hi), (Hin _ _ Hj). simpl. now rewrite Hids.
Qed.

(** The ids of the catalog: seeding installs the drawn ones, a vote keeps
    them, so they stay pairwise distinct when the draws of a seeding are. *)
Lemma update_one_ids p f c :
  (forall d, LLMModel.id (f d) = LLMModel.id d) ->
  map LLMModel.id (Collection.update_one p f c) = map LLMModel.id c.
Proof.
  intros Hf. induction c as [|d c IH]; simpl; [reflexivity|].
  destruct (p d); simpl; congruence.
Qed.

Lemma voted_ids w l c : map LLMModel.id (voted w l c) = map LLMModel.id c.
Proof.
  unfold voted.
  rewrite !update_one_ids; auto using apply_id, recompute_id.
Qed.

Lemma seeded_ids fresh :
  map LLMModel.id (seeded_catalog fresh)
  = map (fun k => uuid4 (fresh k)) (seq 0 (List.length Seed.models)).
Proof. reflexivity. Qed.

(** ** The model at work *)

(** Python's answers: [1 / 3 * 100] rounds to [33.3], [2 / 3 * 100] to
    [66.7]; [round(0.25, 1)] is [0.2] (a tie, to even) and [round(2.675, 2)]
    is [2.67] (the double lies below the tie); [(2**53 + 1) / 1] is
    [2.0**53]. *)
Example round_one_third :
  Py.round (Py.int_true_divide 1 3 * 100)%float 1 = Py.int_true_divide 333 10
  /\ Py.round (Py.int_true_divide 2 3 * 100)%float 1 = Py.int_true_divide 667 10
  /\ Py.round (Py.int_true_divide 1 4) 1 = Py.int_true_divide 2 10
  /\ Py.round (Py.int_true_divide 2675 1000) 2 = Py.int_true_divide 267 100
  /\ Py.int_true_divide (2 ^ 53 + 1) 1 = Py.int_true_divide (2 ^ 53) 1
  /\ Py.truediv 1 0 = inl Py.ZeroDivisionError.
Proof. vm_compute. repeat split. Qed.

(** The integer key orders doubles as the float comparison does. *)
Example order_key_agrees :
  let xs := [0; 12.5; 50; 100; (-1); Py.int_true_divide 333 10;
             Py.int_true_divide 1 10; Py.int_true_divide 667 10]%float in
  forallb (fun x =>
    forallb (fun y =>
      Bool.eqb (Py.order_key x <? Py.order_key y) (x <? y)%float
      && Bool.eqb (Py.order_key x =? Py.order_key y) (x =? y)%float) xs) xs
  = true.
Proof. vm_compute. reflexivity. Qed.

(** Seed, then one vote of the first model over the second: the winner has
    one win out of one vote and a win rate of 100, the loser one loss and a
    win rate of 0; the leaderboard opens with the winner and the statistics
    count one battle. *)
Example first_vote :
  let d := snd (submit_vote (fresh_of "v" 0) vote_0_beats_1 seeded_db) in
  map (fun m => (LLMModel.id m, LLMModel.total_votes m, LLMModel.wins m,
                 LLMModel.losses m, LLMModel.win_rate m))
      (firstn 2 (llm_models d))
  = [("m-0", 1, 1, 0, 100%float); ("m-1", 1, 0, 1, 0%float)]
  /\ option_map (fun board => map LLMModel.id (firstn 2 board))
       (match fst (get_leaderboard d) with inr b => Some b | inl _ => None end)
     = Some ["m-0"; "m-1"]
  /\ fst (get_battle_stats d) = inr (Stats.mk 1 8 (Some "GPT-4") 1).
Proof. vm_compute. repeat split. Qed.

(** A draw on the seeded catalog: positions 5 and 7. *)
Example battle_on_seeded :
  match fst (get_battle (fun _ => 5%nat) seeded_db) with
  | inr b => Some (LLMModel.id (Battle.model1 b), LLMModel.id (Battle.model2 b))
  | inl _ => None
  end = Some ("m-5", "m-7")
  /\ fst (get_battle (fun _ => 5%nat) empty_db) = inl need_two_models.
Proof. vm_compute. repeat split. Qed.

(** * Further properties of the engine *)

(** ** A vote between two models of the catalog *)

Lemma find_one_by_id x c m :
  Collection.find_one (Query.by_id x) c = Some m -> LLMModel.id m = x.
Proof.
  unfold Collection.find_one. intros H. apply find_some in H.
  destruct H as [_ H]. now apply String.eqb_eq in H.
Qed.

(** X1: A vote of [w] over [l], two different ids of the catalog, changes the
    two documents found under these ids and no other: the winner gains one
    vote and one win, the loser one vote and one loss, and both get the win
    rate of their new counters. *)
Theorem vote_changes_two fresh w l d mw ml :
  w <> l ->
  Collection.find_one (Query.by_id w) (llm_models d) = Some mw ->
  Collection.find_one (Query.by_id l) (llm_models d) = Some ml ->
  let d' := snd (submit_vote fresh (VoteRequest.mk w l) d) in
  exists mw' ml',
    Collection.find_one (Query.by_id w) (llm_models d') = Some mw'
    /\ Collection.find_one (Query.by_id l) (llm_models d') = Some ml'
    /\ LLMModel.total_votes mw' = LLMModel.total_votes mw + 1
    /\ LLMModel.wins mw' = LLMModel.wins mw + 1
    /\ LLMModel.losses mw' = LLMModel.losses mw
    /\ LLMModel.win_rate mw'
       = win_rate_of (LLMModel.wins mw + 1) (LLMModel.total_votes mw + 1)
    /\ LLMModel.total_votes ml' = LLMModel.total_votes ml + 1
    /\ LLMModel.wins ml' = LLMModel.wins ml
    /\ LLMModel.losses ml' = LLMModel.losses ml + 1
    /\ LLMModel.win_rate ml'
       = win_rate_of (LLMModel.wins ml) (LLMModel.total_votes ml + 1)
    /\ Forall2 (fun m m' => LLMModel.id m <> w -> LLMModel.id m <> l -> m' = m)
         (llm_models d) (llm_models d').
Proof.
  intros Hwl Hw Hl d'. subst d'. rewrite submit_vote_eq.
  cbn [snd llm_models VoteRequest.winner_id VoteRequest.loser_id].
  rewrite voted_distinct by exact Hwl.
  exists (settle winner_update mw), (settle loser_update ml).
  split; [|split].
  - rewrite find_one_update_other.
    + rewrite find_one_update_one by (intro; apply by_id_settle).
      now rewrite Hw.
    + intro; apply by_id_settle.
    + intros m. apply by_id_other. congruence.
  - rewrite find_one_update_one by (intro; apply by_id_settle).
    rewrite find_one_update_other.
    + now rewrite Hl.
    + intro; apply by_id_settle.
    + intros m. now apply by_id_other.
  - repeat split.
    apply Forall2_chain
      with (c2 := Collection.update_one (Query.by_id w) (settle winner_update)
                    (llm_models d)).
    + intros x y z Hxy Hyz Hx1 Hx2.
      pose proof (Hxy Hx1 Hx2) as ->. exact (Hyz Hx1 Hx2).
    + apply update_one_Forall2; [reflexivity|].
      intros m Hm Hne. apply String.eqb_eq in Hm. contradiction.
    + apply update_one_Forall2; [reflexivity|].
      intros m Hm _ Hne. apply String.eqb_eq in Hm. contradiction.
Qed.

Lemma vote_changes_two_witness :
  let d' := snd (submit_vote (fresh_of "v" 0) (VoteRequest.mk "m-0" "m-1") seeded_db) in
  exists mw' ml',
    Collection.find_one (Query.by_id "m-0") (llm_models d') = Some mw'
    /\ Collection.find_one (Query.by_id "m-1") (llm_models d') = Some ml'
    /\ LLMModel.wins mw' = 1 /\ LLMModel.losses ml' = 1.
Proof.
  destruct (vote_changes_two (fresh_of "v" 0) "m-0" "m-1" seeded_db _ _
              ltac:(discriminate) eq_refl eq_refl)
    as (mw' & ml' & H1 & H2 & _ & H4 & _ & _ & _ & _ & H9 & _).
  exists mw', ml'. repeat split; assumption.
Defined.

(** ** What a vote never touches *)

Lemma same_card_refl m : same_card m m.
Proof. unfold same_card. repeat split. Qed.

Lemma same_card_trans m1 m2 m3 :
  same_card m1 m2 -> same_card m2 m3 -> same_card m1 m3.
Proof.
  unfold same_card.
  intros (?&?&?&?&?&?&?&?) (?&?&?&?&?&?&?&?). repeat split; congruence.
Qed.

Lemma update_one_same_card p f c c' :
  (forall m, same_card m (f m)) ->
  Forall2 same_card c c' ->
  Forall2 same_card c (Collection.update_one p f c').
Proof.
  intros Hf Hc. apply Forall2_chain with (c2 := c'); [exact same_card_trans|exact Hc|].
  apply update_one_Forall2; [apply same_card_refl|]. auto.
Qed.

Lemma voted_same_card w l c : Forall2 same_card c (voted w l c).
Proof.
  unfold voted.
  repeat (apply update_one_same_card;
          [intro; unfold same_card; repeat split|]).
  apply Forall2_diag, same_card_refl.
Qed.

(** X2: A vote leaves the catalog with the same documents in the same order,
    each with its id, name, provider, description, capabilities, performance
    score, creation time and image: only counters and win rates move. *)
Theorem vote_keeps_cards fresh vote_request d :
  Forall2 same_card (llm_models d)
    (llm_models (snd (submit_vote fresh vote_request d))).
Proof.
  rewrite submit_vote_eq. cbn [snd llm_models]. apply voted_same_card.
Qed.

(** ** The ledger only grows *)

Lemma route_step_votes d d' :
  route_step d d' ->
  votes d' = votes d
  \/ exists fresh vote_request,
       votes d' = (votes d ++ [vote_of fresh vote_request])%list.
Proof.
  intros [fresh|fresh vr| |rand| |].
  - left. now rewrite seed_models_eq.
  - right. exists fresh, vr. now rewrite submit_vote_eq.
  - now left.
  - left. now rewrite get_battle_db.
  - now left.
  - left. now rewrite get_battle_stats_eq.
Qed.

(** X3: Whatever route is called, the records of the ledger stay where they
    are and at most one is added after them, so the [total_votes] that
    [get_battle_stats] reports never goes down. *)
Theorem ledger_append_only d d' :
  route_step d d' ->
  (exists new,
     votes d' = (votes d ++ new)%list /\ (List.length new <= 1)%nat)
  /\ (forall st st',
        fst (get_battle_stats d) = inr st ->
        fst (get_battle_stats d') = inr st' ->
        Stats.total_votes st <= Stats.total_votes st'
        /\ Stats.battles_completed st <= Stats.battles_completed st').
Proof.
  intros Hstep.
  assert (Hnew : exists new,
             votes d' = (votes d ++ new)%list /\ (List.length new <= 1)%nat).
  { destruct (route_step_votes d d' Hstep) as [->|(fresh & vr & ->)].
    - exists []. rewrite app_nil_r. split; [reflexivity | simpl; lia].
    - eexists. split; [reflexivity | simpl; lia]. }
  split; [exact Hnew|].
  destruct Hnew as (new & Hvotes & _).
  intros st st'. rewrite !get_battle_stats_eq. cbn [fst].
  intros [= <-] [= <-]. cbn [Stats.total_votes Stats.battles_completed].
  unfold Collection.count_documents. rewrite Hvotes, length_app. lia.
Qed.

Lemma ledger_append_only_witness :
  let d := seeded_db in
  let d' := snd (submit_vote (fresh_of "v" 0) vote_0_beats_1 d) in
  (exists new,
     votes d' = (votes d ++ new)%list /\ (List.length new <= 1)%nat)
  /\ (forall st st',
        fst (get_battle_stats d) = inr st ->
        fst (get_battle_stats d') = inr st' ->
        Stats.total_votes st <= Stats.total_votes st'
        /\ Stats.battles_completed st <= Stats.battles_completed st').
Proof.
  apply (ledger_append_only seeded_db).
  apply step_submit_vote.
Defined.

(** ** The counters of the catalog against the ledger *)

Lemma total_update_one g (p : LLMModel.t -> bool) f c k :
  (forall m, g (f m) = g m + k) ->
  total g (Collection.update_one p f c)
  = total g c + (if found p c then k else 0).
Proof.
  intros Hf. unfold found, Collection.find_one.
  induction c as [|m c IH]; simpl; [lia|].
  destruct (p m); simpl; [rewrite Hf; lia | rewrite IH; lia].
Qed.

Lemma found_update_one (p q : LLMModel.t -> bool) f c :
  (forall m, q (f m) = q m) ->
  found q (Collection.update_one p f c) = found q c.
Proof.
  intros Hf. unfold found, Collection.find_one.
  induction c as [|m c IH]; simpl; [reflexivity|].
  destruct (p m) eqn:Ep; simpl.
  - rewrite Hf. now destruct (q m).
  - destruct (q m); [reflexivity | exact IH].
Qed.

Lemma voted_totals w l c :
  let hit x := if found (Query.by_id x) c then 1 else 0 in
  total LLMModel.wins (voted w l c) = total LLMModel.wins c + hit w
  /\ total LLMModel.losses (voted w l c) = total LLMModel.losses c + hit l
  /\ total LLMModel.total_votes (voted w l c)
     = total LLMModel.total_votes c + hit w + hit l.
Proof.
  intros hit. subst hit. unfold voted.
  set (c1 := Collection.update_one (Query.by_id w) _ c).
  set (c2 := Collection.update_one (Query.by_id l) _ c1).
  set (c3 := Collection.update_one (Query.by_id w) recompute c2).
  assert (Hl : found (Query.by_id l) c1 = found (Query.by_id l) c)
    by (apply found_update_one; intro; apply by_id_apply).
  repeat split.
  - rewrite (total_update_one _ _ recompute c3 0) by (intro; cbn; lia).
    unfold c3. rewrite (total_update_one _ _ recompute c2 0) by (intro; cbn; lia).
    unfold c2. rewrite (total_update_one _ _ _ c1 0) by (intro; cbn; lia).
    unfold c1. rewrite (total_update_one _ _ _ c 1) by (intro; cbn; lia).
    repeat match goal with |- context [if ?b then _ else _] => destruct b end; lia.
  - rewrite (total_update_one _ _ recompute c3 0) by (intro; cbn; lia).
    unfold c3. rewrite (total_update_one _ _ recompute c2 0) by (intro; cbn; lia).
    unfold c2. rewrite (total_update_one _ _ _ c1 1) by (intro; cbn; lia).
    rewrite Hl.
    unfold c1. rewrite (total_update_one _ _ _ c 0) by (intro; cbn; lia).
    repeat match goal with |- context [if ?b then _ else _] => destruct b end; lia.
  - rewrite (total_update_one _ _ recompute c3 0) by (intro; cbn; lia).
    unfold c3. rewrite (total_update_one _ _ recompute c2 0) by (intro; cbn; lia).
    unfold c2. rewrite (total_update_one _ _ _ c1 1) by (intro; cbn; lia).
    rewrite Hl.
    unfold c1. rewrite (total_update_one _ _ _ c 1) by (intro; cbn; lia).
    repeat match goal with |- context [if ?b then _ else _] => destruct b end; lia.
Qed.

(** X4: Over the whole catalog a vote adds exactly one win when the winner's id
    is found and exactly one loss when the loser's id is found, and as many
    votes as both together; an id that is not found adds nothing. *)
Theorem vote_adds_to_totals fresh vote_request d :
  let c := llm_models d in
  let c' := llm_models (snd (submit_vote fresh vote_request d)) in
  let hit x := if found (Query.by_id x) c then 1 else 0 in
  total LLMModel.wins c'
  = total LLMModel.wins c + hit (VoteRequest.winner_id vote_request)
  /\ total LLMModel.losses c'
     = total LLMModel.losses c + hit (VoteRequest.loser_id vote_request)
  /\ total LLMModel.total_votes c'
     = total LLMModel.total_votes c
       + hit (VoteRequest.winner_id vote_request)
       + hit (VoteRequest.loser_id vote_request).
Proof.
  intros c c' hit. subst c c' hit. rewrite submit_vote_eq. cbn [snd llm_models].
  apply voted_totals.
Qed.

Lemma reachable_counters_ok d : reachable d -> Forall counters_ok (llm_models d).
Proof.
  induction 1 as [|fresh d _ IH|fresh vr d _ IH|d _ IH|rand d _ IH|d _ IH|d _ IH].
  - constructor.
  - rewrite seed_models_eq. apply seeded_counters_ok.
  - rewrite submit_vote_eq. now apply voted_counters_ok.
  - exact IH.
  - now rewrite get_battle_db.
  - exact IH.
  - now rewrite get_battle_stats_eq.
Qed.

Lemma seeded_totals fresh :
  total LLMModel.wins (seeded_catalog fresh) = 0
  /\ total LLMModel.losses (seeded_catalog fresh) = 0
  /\ total LLMModel.total_votes (seeded_catalog fresh) = 0.
Proof. repeat split. Qed.

(** X5: In every state that the routes produce from an empty store, the
    catalog accounts for no more than the ledger holds: the wins of all
    models together, and their losses together, are at most the number of
    ledger records, and their votes together are the sum of both. *)
Theorem catalog_within_ledger d :
  reachable d ->
  let n := Z.of_nat (List.length (votes d)) in
  0 <= total LLMModel.wins (llm_models d) <= n
  /\ 0 <= total LLMModel.losses (llm_models d) <= n
  /\ total LLMModel.total_votes (llm_models d)
     = total LLMModel.wins (llm_models d) + total LLMModel.losses (llm_models d).
Proof.
  intros Hd n. subst n.
  induction Hd as [|fresh d _ IH|fresh vr d _ IH|d _ IH|rand d _ IH|d _ IH|d _ IH].
  - cbn. lia.
  - rewrite seed_models_eq. cbn [snd llm_models votes].
    destruct (seeded_totals fresh) as (-> & -> & ->). lia.
  - rewrite submit_vote_eq. cbn [snd votes llm_models].
    destruct (voted_totals (VoteRequest.winner_id vr) (VoteRequest.loser_id vr)
                (llm_models d)) as (Hw & Hl & Ht).
    cbv zeta in Hw, Hl, Ht. rewrite Hw, Hl, Ht.
    rewrite length_app. cbn [List.length].
    repeat match goal with |- context [if ?b then _ else _] => destruct b end; lia.
  - exact IH.
  - now rewrite get_battle_db.
  - exact IH.
  - now rewrite get_battle_stats_eq.
Qed.

Lemma catalog_within_ledger_witness :
  let d := snd (submit_vote (fresh_of "v" 0) vote_0_beats_1 seeded_db) in
  let n := Z.of_nat (List.length (votes d)) in
  0 <= total LLMModel.wins (llm_models d) <= n
  /\ 0 <= total LLMModel.losses (llm_models d) <= n
  /\ total LLMModel.total_votes (llm_models d)
     = total LLMModel.wins (llm_models d) + total LLMModel.losses (llm_models d).
Proof.
  apply (catalog_within_ledger
           (snd (submit_vote (fresh_of "v" 0) vote_0_beats_1 seeded_db))).
  apply reach_submit_vote, reach_seed_models, reach_empty.
Defined.

(** ** The head of the leaderboard and the champion of the statistics *)

Lemma board_head c h rest :
  Collection.sort (Query.leb leaderboard_keys) c = h :: rest ->
  In h c /\ forall m, In m c -> m = h \/ ranks_before h m.
Proof.
  intros E.
  pose proof (sort_perm (Query.leb leaderboard_keys) c) as Hperm.
  pose proof (leaderboard_strongly_sorted c) as Hs.
  rewrite E in Hperm, Hs. split.
  - apply (Permutation_in _ Hperm). now left.
  - intros m Hm. apply (Permutation_in _ (Permutation_sym Hperm)) in Hm.
    apply StronglySorted_inv in Hs. destruct Hs as [_ Hall].
    destruct Hm as [->|Hm]; [now left|right].
    rewrite Forall_forall in Hall. now apply Hall.
Qed.

Lemma wins_head c h rest :
  Collection.sort (Query.leb [(Query.Int Query.wins, -1)]) c = h :: rest ->
  In h c /\ forall m, In m c -> LLMModel.wins m <= LLMModel.wins h.
Proof.
  intros E.
  set (keys := [(Query.Int Query.wins, -1)]) in *.
  pose proof (sort_perm (Query.leb keys) c) as Hperm.
  pose proof (sort_sorted _ (query_leb_total keys) c) as Hs.
  rewrite E in Hperm, Hs. split.
  - apply (Permutation_in _ Hperm). now left.
  - intros m Hm. apply (Permutation_in _ (Permutation_sym Hperm)) in Hm.
    apply Sorted_StronglySorted in Hs.
    + apply StronglySorted_inv in Hs. destruct Hs as [_ Hall].
      destruct Hm as [<-|Hm]; [lia|].
      rewrite Forall_forall in Hall. now apply wins_leb_spec, Hall.
    + intros x y z Hxy Hyz.
      apply wins_leb_spec in Hxy, Hyz. apply wins_leb_spec. lia.
Qed.

Lemma sort_nil_inv {D : Type} (leb : D -> D -> bool) c :
  Collection.sort leb c = [] -> c = [].
Proof.
  intros E. pose proof (sort_perm leb c) as Hperm. rewrite E in Hperm.
  now apply Permutation_nil in Hperm.
Qed.

(** X6: The model that [get_battle_stats] names as [top_model] and the model
    at the head of [get_leaderboard] have the same number of wins, on every
    store; both are absent exactly on an empty catalog.  (They need not be
    the same model: the leaderboard also looks at the win rate.) *)
Theorem champion_matches_board d :
  exists board st,
    get_leaderboard d = (inr board, d)
    /\ get_battle_stats d = (inr st, d)
    /\ match hd_error board with
       | None => llm_models d = [] /\ Stats.top_model st = None
       | Some h =>
           exists m,
             In m (llm_models d)
             /\ Stats.top_model st = Some (LLMModel.name m)
             /\ LLMModel.wins m = LLMModel.wins h
       end.
Proof.
  eexists. eexists. split; [apply get_leaderboard_eq|].
  split; [apply get_battle_stats_eq|].
  cbn [Stats.top_model]. unfold Collection.to_list.
  destruct (Collection.sort (Query.leb leaderboard_keys) (llm_models d))
    as [|h rest] eqn:Eb.
  - apply sort_nil_inv in Eb. rewrite Eb. split; reflexivity.
  - cbn [firstn hd_error].
    destruct (board_head _ _ _ Eb) as [Hh Hmax].
    destruct (Collection.sort (Query.leb [(Query.Int Query.wins, -1)])
                (llm_models d)) as [|m rest'] eqn:Ew.
    + apply sort_nil_inv in Ew. rewrite Ew in Hh. contradiction.
    + destruct (wins_head _ _ _ Ew) as [Hm Hwmax].
      exists m. split; [exact Hm|]. split; [reflexivity|].
      pose proof (Hwmax h Hh) as H1.
      destruct (Hmax m Hm) as [->|Hr]; [reflexivity|].
      unfold ranks_before in Hr. lia.
Qed.

(** ** The catalog as [get_all_models] lists it *)




(** ** Where [get_battle] draws from *)

Lemma get_battle_cases rand d :
  let models := Collection.to_list 1000 (llm_models d) in
  ((List.length models < 2)%nat /\ fst (get_battle rand d) = inl need_two_models)
  \/ exists i j m1 m2,
       i <> j
       /\ nth_error models i = Some m1
       /\ nth_error models j = Some m2
       /\ fst (get_battle rand d) = inr (Battle.mk m1 m2).
Proof.
  intros models.
  unfold get_battle, try_except, bind, ret, raise, lift, internal_error,
    db.llm_models.to_list, db.llm_models.find, db.read.
  fold models.
  destruct (Nat.ltb_spec (List.length models) 2) as [Hfew|Htwo].
  - left. split; [exact Hfew | reflexivity].
  - right.
    destruct (sample_two models rand Htwo) as (i & j & m1 & m2 & Hij & Hi & Hj & ->).
    exists i, j, m1, m2. repeat split; assumption.
Qed.

(** X8: The two models of a battle come from the first 1000 documents of the
    catalog, from two different places: a model stored after them is never
    drawn. *)
Theorem battle_from_first_1000 rand d b :
  fst (get_battle rand d) = inr b ->
  exists i j,
    (i < 1000)%nat /\ (j < 1000)%nat /\ i <> j
    /\ nth_error (llm_models d) i = Some (Battle.model1 b)
    /\ nth_error (llm_models d) j = Some (Battle.model2 b).
Proof.
  intros Hb.
  destruct (get_battle_cases rand d) as [[_ Hfail]|(i & j & m1 & m2 & Hij & Hi & Hj & Hok)].
  - rewrite Hfail in Hb. discriminate.
  - rewrite Hok in Hb. injection Hb as <-. cbn [Battle.model1 Battle.model2].
    unfold Collection.to_list in Hi, Hj. rewrite nth_error_firstn in Hi, Hj.
    exists i, j.
    destruct (Nat.ltb_spec i 1000); [|discriminate].
    destruct (Nat.ltb_spec j 1000); [|discriminate].
    repeat split; assumption.
Qed.

Lemma battle_from_first_1000_witness :
  exists i j,
    (i < 1000)%nat /\ (j < 1000)%nat /\ i <> j
    /\ option_map LLMModel.id (nth_error (llm_models seeded_db) i) = Some "m-5"
    /\ option_map LLMModel.id (nth_error (llm_models seeded_db) j) = Some "m-7".
Proof.
  destruct (battle_from_first_1000 (fun _ => 5%nat) seeded_db _ eq_refl)
    as (i & j & Hi & Hj & Hij & H1 & H2).
  exists i, j. rewrite H1, H2. repeat split; assumption.
Defined.

(** ** Seed, draw a battle, vote for its first model *)

Lemma find_one_unique c m :
  NoDup (map LLMModel.id c) -> In m c ->
  Collection.find_one (Query.by_id (LLMModel.id m)) c = Some m.
Proof.
  unfold Collection.find_one, Query.by_id.
  induction c as [|x c IH]; intros Hnd Hin; [contradiction|].
  simpl in *. inversion Hnd as [|? ? Hx Hnd']; subst.
  destruct Hin as [->|Hin].
  - now rewrite String.eqb_refl.
  - destruct (String.eqb_spec (LLMModel.id x) (LLMModel.id m)) as [E|_].
    + exfalso. apply Hx. rewrite E. now apply in_map.
    + now apply IH.
Qed.

Lemma update_one_In {D : Type} (p : D -> bool) f c x :
  In x (Collection.update_one p f c) ->
  In x c \/ exists m, Collection.find_one p c = Some m /\ x = f m.
Proof.
  unfold Collection.find_one.
  induction c as [|d c IH]; simpl; [tauto|].
  destruct (p d); simpl.
  - intros [<-|Hx]; [right; now exists d | left; now right].
  - intros [<-|Hx]; [left; now left|].
    destruct (IH Hx) as [H|H]; [left; now right | now right].
Qed.

Lemma find_one_In {D : Type} (p : D -> bool) c m :
  Collection.find_one p c = Some m -> In m c.
Proof. unfold Collection.find_one. intros H. now apply find_some in H. Qed.

Lemma seeded_zero fresh :
  Forall (fun m => LLMModel.wins m = 0 /\ LLMModel.total_votes m = 0)
    (seeded_catalog fresh).
Proof. unfold seeded_catalog. simpl. repeat constructor. Qed.

(** The catalog after a first vote of [m1] over [m2] on fresh counters:
    the winner's document is there with one win, every other has none. *)
Lemma first_vote_catalog c m1 m2 :
  NoDup (map LLMModel.id c) ->
  Forall (fun m => LLMModel.wins m = 0 /\ LLMModel.total_votes m = 0) c ->
  In m1 c -> In m2 c -> LLMModel.id m1 <> LLMModel.id m2 ->
  let c' := voted (LLMModel.id m1) (LLMModel.id m2) c in
  In (settle winner_update m1) c'
  /\ forall m, In m c' -> m = settle winner_update m1 \/ LLMModel.wins m = 0.
Proof.
  intros Hnd Hzero H1 H2 Hne c'. subst c'.
  rewrite voted_distinct by exact Hne.
  pose proof (find_one_unique c m1 Hnd H1) as F1.
  pose proof (find_one_unique c m2 Hnd H2) as F2.
  rewrite Forall_forall in Hzero.
  split.
  - apply find_one_In with (p := Query.by_id (LLMModel.id m1)).
    rewrite find_one_update_other.
    + rewrite find_one_update_one by (intro; apply by_id_settle).
      now rewrite F1.
    + intro; apply by_id_settle.
    + intros m. apply by_id_other. congruence.
  - intros m Hm. apply update_one_In in Hm.
    destruct Hm as [Hm|(ml & Hl & ->)].
    + apply update_one_In in Hm.
      destruct Hm as [Hm|(mw & Hw & ->)].
      * right. now apply Hzero.
      * left. congruence.
    + right. rewrite find_one_update_other in Hl.
      * rewrite F2 in Hl. injection Hl as <-.
        change (LLMModel.wins m2 = 0). now apply Hzero.
      * intro; apply by_id_settle.
      * intros m. now apply by_id_other.
Qed.

(** X9: The run of the test script: seed the catalog (with eight different
    ids), ask for a battle and vote for its first model.  The battle is
    granted; afterwards the leaderboard opens with that model, holding one
    win out of one vote and a win rate of 100, the statistics name it as
    [top_model], count eight models and one more battle than the ledger
    held before. *)
Theorem first_vote_crowns_winner fresh_m fresh_v rand d0 :
  NoDup (map (fun k => uuid4 (fresh_m k)) (seq 0 8)) ->
  let d1 := snd (seed_models fresh_m d0) in
  exists b,
    fst (get_battle rand d1) = inr b
    /\ let vote_request :=
         VoteRequest.mk (LLMModel.id (Battle.model1 b))
           (LLMModel.id (Battle.model2 b)) in
       let d2 := snd (submit_vote fresh_v vote_request d1) in
       exists board h st,
         get_leaderboard d2 = (inr board, d2)
         /\ hd_error board = Some h
         /\ LLMModel.id h = LLMModel.id (Battle.model1 b)
         /\ LLMModel.name h = LLMModel.name (Battle.model1 b)
         /\ LLMModel.wins h = 1
         /\ LLMModel.total_votes h = 1
         /\ LLMModel.losses h = 0
         /\ LLMModel.win_rate h = 100%float
         /\ get_battle_stats d2 = (inr st, d2)
         /\ Stats.top_model st = Some (LLMModel.name (Battle.model1 b))
         /\ Stats.total_models st = 8
         /\ Stats.battles_completed st = Z.of_nat (List.length (votes d0)) + 1.
Proof.
  intros Hnd d1. subst d1. rewrite seed_models_eq. cbn [snd].
  set (d1 := {| llm_models := seeded_catalog fresh_m; votes := votes d0 |}).
  assert (Hids : NoDup (map LLMModel.id (llm_models d1)))
    by (cbn [d1 llm_models]; rewrite seeded_ids; exact Hnd).
  destruct (get_battle_cases rand d1)
    as [[Hfew _]|(i & j & m1 & m2 & Hij & Hi & Hj & Hok)].
  { cbn in Hfew. lia. }
  unfold Collection.to_list in Hi, Hj. rewrite nth_error_firstn in Hi, Hj.
  destruct (Nat.ltb_spec i 1000); [|discriminate].
  destruct (Nat.ltb_spec j 1000); [|discriminate].
  exists (Battle.mk m1 m2). split; [exact Hok|].
  cbn [Battle.model1 Battle.model2].
  set (vote_request := VoteRequest.mk (LLMModel.id m1) (LLMModel.id m2)).
  set (d2 := snd (submit_vote fresh_v vote_request d1)).
  assert (Hne : LLMModel.id m1 <> LLMModel.id m2).
  { intros E. apply Hij. apply (proj1 (NoDup_nth_error _) Hids).
    - rewrite length_map. apply nth_error_Some. rewrite Hi. discriminate.
    - rewrite !nth_error_map, Hi, Hj. simpl. now rewrite E. }
  destruct (first_vote_catalog (llm_models d1) m1 m2 Hids (seeded_zero fresh_m)
              (nth_error_In _ _ Hi) (nth_error_In _ _ Hj) Hne) as [HW Hrest].
  set (W := settle winner_update m1) in *.
  assert (HW1 : LLMModel.wins W = 1 /\ LLMModel.total_votes W = 1
                /\ LLMModel.losses W = 0 /\ LLMModel.win_rate W = 100%float).
  { pose proof (seeded_zero fresh_m) as Hz. rewrite Forall_forall in Hz.
    destruct (Hz m1 (nth_error_In _ _ Hi)) as [Hw Ht].
    pose proof (seeded_counters_ok fresh_m) as Hok'. rewrite Forall_forall in Hok'.
    destruct (Hok' m1 (nth_error_In _ _ Hi)) as (Hsum & _ & _ & Hl).
    assert (Hl0 : LLMModel.losses m1 = 0) by lia.
    subst W. unfold settle, recompute. cbn. rewrite Hw, Ht, Hl0.
    repeat split. }
  destruct HW1 as (Hw1 & Ht1 & Hl1 & Hr1).
  assert (Hd2 : d2 = {| llm_models := voted (LLMModel.id m1) (LLMModel.id m2)
                                        (llm_models d1);
                        votes := (votes d0 ++ [vote_of fresh_v vote_request])%list |}).
  { subst d2. rewrite submit_vote_eq. reflexivity. }
  assert (Hlen2 : List.length (voted (LLMModel.id m1) (LLMModel.id m2)
                                 (llm_models d1)) = 8%nat).
  { rewrite <- (Forall2_length (voted_same_card _ _ (llm_models d1))). reflexivity. }
  set (c2 := voted (LLMModel.id m1) (LLMModel.id m2) (llm_models d1)) in *.
  destruct (Collection.sort (Query.leb leaderboard_keys) c2) as [|h rest] eqn:Eb.
  { apply sort_nil_inv in Eb. rewrite Eb in Hlen2. discriminate. }
  destruct (board_head _ _ _ Eb) as [Hh Hmax].
  assert (HhW : h = W).
  { destruct (Hrest h Hh) as [E|Hz]; [exact E|].
    destruct (Hmax W HW) as [E|Hr]; [now symmetry|].
    unfold ranks_before in Hr. lia. }
  destruct (Collection.sort (Query.leb [(Query.Int Query.wins, -1)]) c2)
    as [|t rest'] eqn:Ew.
  { apply sort_nil_inv in Ew. rewrite Ew in Hlen2. discriminate. }
  destruct (wins_head _ _ _ Ew) as [Ht Htmax].
  assert (HtW : t = W).
  { destruct (Hrest t Ht) as [E|Hz]; [exact E|].
    pose proof (Htmax W HW). lia. }
  clearbody d2. subst d2.
  exists (Collection.to_list 1000 (h :: rest)), h,
    (Stats.mk (Z.of_nat (List.length (votes d0 ++ [vote_of fresh_v vote_request])))
       (Z.of_nat (List.length c2)) (Some (LLMModel.name t))
       (Z.of_nat (List.length (votes d0 ++ [vote_of fresh_v vote_request])))).
  rewrite get_leaderboard_eq, get_battle_stats_eq.
  cbn [llm_models votes]. rewrite Eb, Ew.
  cbn [hd_error option_map Stats.top_model Stats.total_models
       Stats.battles_completed].
  unfold Collection.count_documents.
  rewrite HhW, HtW, Hw1, Ht1, Hl1, Hr1, Hlen2, length_app. cbn [List.length].
  repeat split. lia.
Qed.

Lemma fresh_of_m_distinct :
  NoDup (map (fun k => uuid4 (fresh_of "m" k)) (seq 0 8)).
Proof.
  repeat (constructor;
          [simpl; intros H;
           repeat (destruct H as [H|H]; [discriminate|]); exact H|]).
  constructor.
Qed.

Lemma first_vote_crowns_winner_witness :
  exists b,
    fst (get_battle (fun _ => 5%nat) seeded_db) = inr b
    /\ exists board h,
         fst (get_leaderboard
                (snd (submit_vote (fresh_of "v" 0)
                        (VoteRequest.mk (LLMModel.id (Battle.model1 b))
                           (LLMModel.id (Battle.model2 b))) seeded_db)))
         = inr board
         /\ hd_error board = Some h
         /\ LLMModel.id h = LLMModel.id (Battle.model1 b)
         /\ LLMModel.wins h = 1.
Proof.
  destruct (first_vote_crowns_winner (fresh_of "m") (fresh_of "v" 0)
              (fun _ => 5%nat) empty_db fresh_of_m_distinct)
    as (b & Hb & board & h & st & H1 & H2 & H3 & _ & H5 & _).
  exists b. split; [exact Hb|]. exists board, h.
  split; [|repeat split; assumption].
  unfold seeded_db. now rewrite H1.
Defined.

(** ** The status routes *)







(** ** The agent routes *)

Ltac agents_unfold :=
  unfold Agents.chat_with_agent, Agents.search_and_summarize,
    Agents.get_agent_capabilities, Agents.gtry, Agents.gbind, Agents.gret,
    Agents.graise, Agents.call, Agents.read_globals, Agents.set_search_agent,
    Agents.set_chat_agent, Agents.is_none, answer_with, search_with;
  cbn [Agents.search_agent Agents.chat_agent fst snd andb].

Section AgentRoutes.
Context {AgentObj LibError Value : Type}.
Implicit Types (w : Agents.World AgentObj LibError Value)
  (g : Agents.Globals AgentObj)
  (request : Agents.ChatRequest Value).

Lemma chat_selected w request g agent :
  selected request g = Some agent ->
  Agents.chat_with_agent w request g = (inr (answer_with w request agent), g).
Proof.
  destruct g as [sg cg]. unfold selected. cbn [Agents.search_agent Agents.chat_agent].
  intros Hsel. agents_unfold.
  destruct (String.eqb_spec (Agents.agent_type request) "search") as [Hs|Hs].
  - subst sg.
    assert (Hc : String.eqb (Agents.agent_type request) "chat" = false)
      by (rewrite Hs; reflexivity).
    rewrite Hc. cbn.
    destruct (Agents.execute w agent (Agents.message request) None); [reflexivity|].
    destruct (Agents.get_capabilities w agent); reflexivity.
  - subst cg. rewrite andb_false_r. cbn.
    destruct (Agents.execute w agent (Agents.message request) None); [reflexivity|].
    destruct (Agents.get_capabilities w agent); reflexivity.
Qed.

Lemma chat_builds_search w request g :
  Agents.agent_type request = "search" -> Agents.search_agent g = None ->
  Agents.chat_with_agent w request g
  = match Agents.new_search_agent w with
    | inl e => (inr (chat_failure request (Agents.Lib e)), g)
    | inr a =>
        (inr (answer_with w request a),
         {| Agents.search_agent := Some a; Agents.chat_agent := Agents.chat_agent g |})
    end.
Proof.
  destruct g as [sg cg]. cbn [Agents.search_agent Agents.chat_agent].
  intros Htype ->. agents_unfold.
  rewrite (proj2 (String.eqb_eq _ _) Htype). cbn.
  destruct (Agents.new_search_agent w) as [e|a]; [reflexivity|]. cbn.
  destruct (Agents.execute w a (Agents.message request) None); [reflexivity|].
  destruct (Agents.get_capabilities w a); reflexivity.
Qed.

Lemma chat_builds_chat w request g :
  Agents.agent_type request = "chat" -> Agents.chat_agent g = None ->
  Agents.chat_with_agent w request g
  = match Agents.new_chat_agent w with
    | inl e => (inr (chat_failure request (Agents.Lib e)), g)
    | inr a =>
        (inr (answer_with w request a),
         {| Agents.search_agent := Agents.search_agent g; Agents.chat_agent := Some a |})
    end.
Proof.
  destruct g as [sg cg]. cbn [Agents.search_agent Agents.chat_agent].
  intros Htype ->. agents_unfold.
  assert (Hs : String.eqb (Agents.agent_type request) "search" = false)
    by (rewrite Htype; reflexivity).
  rewrite Hs, (proj2 (String.eqb_eq _ _) Htype). cbn.
  destruct (Agents.new_chat_agent w) as [e|a]; [reflexivity|]. cbn.
  destruct (Agents.execute w a (Agents.message request) None); [reflexivity|].
  destruct (Agents.get_capabilities w a); reflexivity.
Qed.

Lemma chat_other_type w request g :
  Agents.agent_type request <> "search" -> Agents.agent_type request <> "chat" ->
  Agents.chat_agent g = None ->
  Agents.chat_with_agent w request g
  = (inr (chat_failure request (Agents.Http 500 "Failed to initialize agent")), g).
Proof.
  destruct g as [sg cg]. cbn [Agents.search_agent Agents.chat_agent].
  intros Hs Hc ->. agents_unfold.
  apply String.eqb_neq in Hs, Hc. rewrite Hs, Hc. reflexivity.
Qed.

Lemma answer_with_cases w request agent :
  (exists e, answer_with w request agent = chat_failure request e)
  \/ exists response capabilities,
       Agents.execute w agent (Agents.message request) None = inr response
       /\ Agents.get_capabilities w agent = inr capabilities
       /\ answer_with w request agent = chat_reply request response capabilities.
Proof.
  unfold answer_with.
  destruct (Agents.execute w agent (Agents.message request) None) as [e|r];
    [left; now eexists|].
  destruct (Agents.get_capabilities w agent) as [e|c]; [left; now eexists|].
  right. now exists r, c.
Qed.

Lemma answer_with_type w request agent :
  Agents.chat_agent_type (answer_with w request agent) = Agents.agent_type request.
Proof.
  unfold answer_with.
  destruct (Agents.execute w agent (Agents.message request) None); [reflexivity|].
  destruct (Agents.get_capabilities w agent); reflexivity.
Qed.

(** X13: [chat_with_agent] never raises: it answers with the agent type of the
    request, and its answer is either the failure reply for what was raised
    on the way, or the reply built from what the selected agent returned
    for the message and from its capabilities. *)
Theorem chat_always_answers w request g :
  exists resp g',
    Agents.chat_with_agent w request g = (inr resp, g')
    /\ Agents.chat_agent_type resp = Agents.agent_type request
    /\ ((exists e, resp = chat_failure request e)
        \/ exists agent response capabilities,
             selected request g' = Some agent
             /\ Agents.execute w agent (Agents.message request) None = inr response
             /\ Agents.get_capabilities w agent = inr capabilities
             /\ resp = chat_reply request response capabilities).
Proof.
  assert (Hrun : forall g' agent,
    selected request g' = Some agent ->
    Agents.chat_agent_type (answer_with w request agent) = Agents.agent_type request
    /\ ((exists e, answer_with w request agent = chat_failure request e)
        \/ exists agent' response capabilities,
             selected request g' = Some agent'
             /\ Agents.execute w agent' (Agents.message request) None = inr response
             /\ Agents.get_capabilities w agent' = inr capabilities
             /\ answer_with w request agent = chat_reply request response capabilities)).
  { intros g' agent Hsel. split; [apply answer_with_type|].
    destruct (answer_with_cases w request agent) as [H|(r & c & H1 & H2 & H3)];
      [now left | right; now exists agent, r, c]. }
  destruct (selected request g) as [agent|] eqn:Hsel.
  - exists (answer_with w request agent), g.
    split; [now apply chat_selected | now apply Hrun].
  - unfold selected in Hsel.
    destruct (String.eqb_spec (Agents.agent_type request) "search") as [Hs|Hs].
    + rewrite (chat_builds_search w request g Hs Hsel).
      destruct (Agents.new_search_agent w) as [e|a].
      * eexists. eexists. split; [reflexivity|]. split; [reflexivity|].
        left. now eexists.
      * eexists. eexists. split; [reflexivity|]. apply Hrun.
        unfold selected. rewrite Hs. reflexivity.
    + destruct (String.eqb_spec (Agents.agent_type request) "chat") as [Hc|Hc].
      * rewrite (chat_builds_chat w request g Hc Hsel).
        destruct (Agents.new_chat_agent w) as [e|a].
        -- eexists. eexists. split; [reflexivity|]. split; [reflexivity|].
           left. now eexists.
        -- eexists. eexists. split; [reflexivity|]. apply Hrun.
           unfold selected. rewrite Hc. reflexivity.
      * rewrite (chat_other_type w request g Hs Hc Hsel).
        eexists. eexists. split; [reflexivity|]. split; [reflexivity|].
        left. now eexists.
Qed.


(** X14: A request whose agent type is neither ["search"] nor ["chat"] builds no
    agent and leaves the globals as they are: it is served by the chat
    agent when there is one, and answered with the failure reply
    "Failed to initialize agent" when there is none. *)
Theorem other_agent_type_goes_to_chat w request g :
  Agents.agent_type request <> "search" ->
  Agents.agent_type request <> "chat" ->
  Agents.chat_with_agent w request g
  = (inr match Agents.chat_agent g with
         | Some agent => answer_with w request agent
         | None =>
             chat_failure request (Agents.Http 500 "Failed to initialize agent")
         end, g).
Proof.
  intros Hs Hc. destruct (Agents.chat_agent g) as [agent|] eqn:E.
  - apply chat_selected. unfold selected.
    apply String.eqb_neq in Hs. now rewrite Hs.
  - now apply chat_other_type.
Qed.

(** X15: The search agent is built once: when a ["search"] request finds none and
    the library delivers one, every later ["search"] request is served by
    that same agent, whatever the library would build by then, and changes
    the globals no more.  When the library fails to build it, the request
    is answered with the failure reply and the globals stay without it. *)
Theorem search_agent_built_once w1 w2 request1 request2 g :
  Agents.agent_type request1 = "search" ->
  Agents.agent_type request2 = "search" ->
  Agents.search_agent g = None ->
  let g1 := snd (Agents.chat_with_agent w1 request1 g) in
  match Agents.new_search_agent w1 with
  | inr agent =>
      fst (Agents.chat_with_agent w1 request1 g) = inr (answer_with w1 request1 agent)
      /\ Agents.search_agent g1 = Some agent
      /\ Agents.chat_agent g1 = Agents.chat_agent g
      /\ Agents.chat_with_agent w2 request2 g1
         = (inr (answer_with w2 request2 agent), g1)
  | inl e =>
      fst (Agents.chat_with_agent w1 request1 g)
      = inr (chat_failure request1 (Agents.Lib e))
      /\ g1 = g
  end.
Proof.
  intros H1 H2 Hnone g1. subst g1.
  rewrite (chat_builds_search w1 request1 g H1 Hnone).
  destruct (Agents.new_search_agent w1) as [e|agent]; cbn [fst snd].
  - split; reflexivity.
  - repeat split. apply chat_selected. unfold selected. now rewrite H2.
Qed.

Lemma search_eq w (request : Agents.SearchRequest) g :
  Agents.search_and_summarize w request g
  = match Agents.search_agent g with
    | Some agent => (inr (search_with w request agent), g)
    | None =>
        match Agents.new_search_agent w with
        | inl e =>
            (inr (search_failure request (Some (Agents.StrOf (Agents.Lib e)))), g)
        | inr agent =>
            (inr (search_with w request agent),
             {| Agents.search_agent := Some agent;
                Agents.chat_agent := Agents.chat_agent g |})
        end
    end.
Proof.
  destruct g as [sg cg]. agents_unfold. unfold search_failure, search_found.
  destruct sg as [agent|]; cbn.
  - destruct (Agents.execute w agent _ (Some true)) as [e|result]; [reflexivity|].
    cbn. destruct (Agents.success result); [|reflexivity].
    destruct (Agents.dict_get (Agents.metadata result) "tools_used") as [v|];
      [|reflexivity].
    destruct (Agents.int_field w v); reflexivity.
  - destruct (Agents.new_search_agent w) as [e|agent]; [reflexivity|]. cbn.
    destruct (Agents.execute w agent _ (Some true)) as [e|result]; [reflexivity|].
    cbn. destruct (Agents.success result); [|reflexivity].
    destruct (Agents.dict_get (Agents.metadata result) "tools_used") as [v|];
      [|reflexivity].
    destruct (Agents.int_field w v); reflexivity.
Qed.

(** X16: [search_and_summarize] never raises and never touches the chat agent.
    Its answer carries the query of the request.  An answer without success
    has an empty summary, no results and no sources; an answer with success
    carries the content and the metadata that the search agent returned for
    the search prompt, called with tools, and counts as sources the
    ["tools_used"] entry of the metadata, or 0 when there is none. *)
Theorem search_always_answers w (request : Agents.SearchRequest) g :
  exists resp g',
    Agents.search_and_summarize w request g = (inr resp, g')
    /\ Agents.chat_agent g' = Agents.chat_agent g
    /\ Agents.search_query resp = Agents.query request
    /\ Agents.search_error resp <> Some (Agents.StrOf Agents.AttributeError)
    /\ (Agents.search_success resp = false ->
        Agents.summary resp = "" /\ Agents.sources_count resp = 0
        /\ Agents.search_results resp = None)
    /\ (Agents.search_success resp = true ->
        exists agent result,
          Agents.search_agent g' = Some agent
          /\ Agents.execute w agent
               (Agents.search_prompt_of (Agents.query request)) (Some true)
             = inr result
          /\ Agents.success result = true
          /\ Agents.summary resp = Agents.content result
          /\ Agents.search_results resp = Some (Agents.metadata result)
          /\ Agents.search_error resp = None
          /\ match Agents.dict_get (Agents.metadata result) "tools_used" with
             | Some v => Agents.int_field w v = inr (Agents.sources_count resp)
             | None => Agents.sources_count resp = 0
             end).
Proof.
  assert (Hwith : forall agent,
    Agents.search_query (search_with w request agent) = Agents.query request
    /\ Agents.search_error (search_with w request agent)
       <> Some (Agents.StrOf Agents.AttributeError)
    /\ (Agents.search_success (search_with w request agent) = false ->
        Agents.summary (search_with w request agent) = ""
        /\ Agents.sources_count (search_with w request agent) = 0
        /\ Agents.search_results (search_with w request agent) = None)
    /\ (Agents.search_success (search_with w request agent) = true ->
        exists result,
          Agents.execute w agent
            (Agents.search_prompt_of (Agents.query request)) (Some true)
          = inr result
          /\ Agents.success result = true
          /\ Agents.summary (search_with w request agent) = Agents.content result
          /\ Agents.search_results (search_with w request agent)
             = Some (Agents.metadata result)
          /\ Agents.search_error (search_with w request agent) = None
          /\ match Agents.dict_get (Agents.metadata result) "tools_used" with
             | Some v =>
                 Agents.int_field w v
                 = inr (Agents.sources_count (search_with w request agent))
             | None => Agents.sources_count (search_with w request agent) = 0
             end)).
  { intros agent. unfold search_with.
    destruct (Agents.execute w agent _ (Some true)) as [e|result] eqn:Ex.
    { cbn. repeat split; discriminate. }
    destruct (Agents.success result) eqn:Es.
    - destruct (Agents.dict_get (Agents.metadata result) "tools_used") as [v|] eqn:Ed.
      + destruct (Agents.int_field w v) as [e|n] eqn:Ei.
        * cbn. repeat split; discriminate.
        * cbn. repeat split; try discriminate. intros _.
          exists result. rewrite Ed. repeat split; assumption.
      + cbn. repeat split; try discriminate. intros _.
        exists result. rewrite Ed. repeat split; assumption.
    - cbn. repeat split; try discriminate.
      destruct (Agents.error result); discriminate. }
  rewrite search_eq.
  destruct (Agents.search_agent g) as [agent|] eqn:Eg.
  - exists (search_with w request agent), g.
    destruct (Hwith agent) as (H1 & H2 & H3 & H4).
    repeat split; try assumption; try (now apply H3).
    intros Hok. destruct (H4 Hok) as (result & K).
    now exists agent, result.
  - destruct (Agents.new_search_agent w) as [e|agent].
    + eexists. eexists. split; [reflexivity|]. cbn.
      repeat split; discriminate.
    + eexists. eexists. split; [reflexivity|].
      destruct (Hwith agent) as (H1 & H2 & H3 & H4).
      cbn [Agents.chat_agent Agents.search_agent].
      repeat split; try assumption; try (now apply H3).
      intros Hok. destruct (H4 Hok) as (result & K).
      now exists agent, result.
Qed.

(** X17: [get_agent_capabilities] never raises and leaves the globals as they
    are: it builds both agents anew on every call, and lists their
    capabilities exactly when both are built and both answer; otherwise it
    reports the first exception of the library. *)
Theorem capabilities_always_answers w g :
  exists reply,
    Agents.get_agent_capabilities w g = (inr reply, g)
    /\ (forall s c,
          reply = Agents.Capabilities s c <->
          exists a b,
            Agents.new_search_agent w = inr a
            /\ Agents.get_capabilities w a = inr s
            /\ Agents.new_chat_agent w = inr b
            /\ Agents.get_capabilities w b = inr c).
Proof.
  agents_unfold.
  destruct (Agents.new_search_agent w) as [e|a] eqn:E1.
  { eexists. split; [reflexivity|]. intros s c. split; [discriminate|].
    intros (a & b & H & _). discriminate. }
  destruct (Agents.get_capabilities w a) as [e|s'] eqn:E2.
  { eexists. split; [reflexivity|]. intros s c. split; [discriminate|].
    intros (a' & b & [= <-] & H & _). congruence. }
  destruct (Agents.new_chat_agent w) as [e|b] eqn:E3.
  { eexists. split; [reflexivity|]. intros s c. split; [discriminate|].
    intros (a' & b & _ & _ & H & _). discriminate. }
  destruct (Agents.get_capabilities w b) as [e|c'] eqn:E4.
  { eexists. split; [reflexivity|]. intros s c. split; [discriminate|].
    intros (a' & b' & [= <-] & _ & [= <-] & H). congruence. }
  eexists. split; [reflexivity|]. intros s c. split.
  - intros [= <- <-]. now exists a, b.
  - intros (a' & b' & [= <-] & Hs & [= <-] & Hc). congruence.
Qed.

End AgentRoutes.

Lemma other_agent_type_goes_to_chat_witness :
  Agents.chat_with_agent toy_world
    {| Agents.message := "hello"; Agents.agent_type := "poet";
       Agents.context := None |} no_agents
  = (inr {| Agents.chat_success := false;
            Agents.chat_response := "";
            Agents.chat_agent_type := "poet";
            Agents.chat_capabilities := [];
            Agents.chat_metadata := [];
            Agents.chat_error :=
              Some (Agents.StrOf (Agents.Http 500 "Failed to initialize agent")) |},
     no_agents).
Proof.
  apply (other_agent_type_goes_to_chat toy_world
           {| Agents.message := "hello"; Agents.agent_type := "poet";
              Agents.context := None |} no_agents); discriminate.
Defined.

Lemma search_agent_built_once_witness :
  let ask m := {| Agents.message := m; Agents.agent_type := "search";
                  Agents.context := @None (list (string * Z)) |} in
  let later := {| Agents.new_search_agent := inl "down";
                  Agents.new_chat_agent := inl "down";
                  Agents.execute := Agents.execute toy_world;
                  Agents.get_capabilities := Agents.get_capabilities toy_world;
                  Agents.int_field := Agents.int_field toy_world |} in
  let g1 := snd (Agents.chat_with_agent toy_world (ask "one") no_agents) in
  Agents.search_agent g1 = Some "searcher"
  /\ option_map (@Agents.chat_response string Z)
       (match fst (Agents.chat_with_agent later (ask "two") g1) with
        | inr r => Some r
        | inl _ => None
        end) = Some "searcher: two".
Proof.
  intros ask later g1.
  pose proof (search_agent_built_once toy_world later (ask "one") (ask "two")
                no_agents eq_refl eq_refl eq_refl) as H.
  cbn [toy_world Agents.new_search_agent] in H.
  destruct H as (_ & H2 & _ & H4).
  split; [exact H2|]. subst g1. now rewrite H4.
Defined.

(** The routes on the library of the examples: a search counts the two
    tools that the metadata reports, and a chat of type ["chat"] never
    builds the search agent. *)
Example agents_at_work :
  let r := Agents.search_and_summarize toy_world
             {| Agents.query := "rocq"; Agents.max_results := 5 |} no_agents in
  option_map (fun resp => (Agents.search_success resp, Agents.sources_count resp,
                           Agents.summary resp))
    (match fst r with inr resp => Some resp | inl _ => None end)
  = Some (true, 2,
          "searcher: Search for information about: rocq. Provide a comprehensive summary with key findings.")
  /\ snd r = {| Agents.search_agent := Some "searcher"; Agents.chat_agent := None |}
  /\ snd (Agents.chat_with_agent toy_world
            {| Agents.message := "hi"; Agents.agent_type := "chat";
               Agents.context := None |} no_agents)
     = {| Agents.search_agent := None; Agents.chat_agent := Some "chatter" |}.
Proof. vm_compute. repeat split. Qed.

(** ** The counters against the votes submitted since the seeding *)

Lemma update_one_as_map x f c :
  NoDup (map LLMModel.id c) ->
  Collection.update_one (Query.by_id x) f c
  = map (fun m => if Query.by_id x m then f m else m) c.
Proof.
  induction c as [|m c IH]; intros Hnd; simpl; [reflexivity|].
  simpl in Hnd. inversion Hnd as [|? ? Hm Hnd']; subst.
  destruct (Query.by_id x m) eqn:E.
  - f_equal. symmetry. rewrite <- (map_id c) at 2. apply map_ext_in.
    intros m' Hm'. destruct (Query.by_id x m') eqn:E'; [|reflexivity].
    exfalso. apply Hm. unfold Query.by_id in E, E'.
    apply String.eqb_eq in E, E'. rewrite E, <- E'. now apply in_map.
  - f_equal. now apply IH.
Qed.

Lemma voted_as_map w l c :
  NoDup (map LLMModel.id c) -> voted w l c = map (vote_on w l) c.
Proof.
  intros Hnd. unfold voted.
  set (c1 := Collection.update_one (Query.by_id w) _ c).
  set (c2 := Collection.update_one (Query.by_id l) _ c1).
  set (c3 := Collection.update_one (Query.by_id w) recompute c2).
  assert (Hnd1 : NoDup (map LLMModel.id c1))
    by (unfold c1; rewrite update_one_ids; auto using apply_id).
  assert (Hnd2 : NoDup (map LLMModel.id c2))
    by (unfold c2; rewrite update_one_ids; auto using apply_id).
  assert (Hnd3 : NoDup (map LLMModel.id c3))
    by (unfold c3; rewrite update_one_ids; auto using recompute_id).
  rewrite (update_one_as_map l recompute c3 Hnd3). unfold c3.
  rewrite (update_one_as_map w recompute c2 Hnd2). unfold c2.
  rewrite (update_one_as_map l _ c1 Hnd1). unfold c1.
  rewrite (update_one_as_map w _ c Hnd).
  rewrite !map_map. reflexivity.
Qed.

Lemma vote_on_counters w l m :
  LLMModel.id (vote_on w l m) = LLMModel.id m
  /\ LLMModel.wins (vote_on w l m)
     = LLMModel.wins m + (if String.eqb (LLMModel.id m) w then 1 else 0)
  /\ LLMModel.losses (vote_on w l m)
     = LLMModel.losses m + (if String.eqb (LLMModel.id m) l then 1 else 0)
  /\ LLMModel.total_votes (vote_on w l m)
     = LLMModel.total_votes m
       + (if String.eqb (LLMModel.id m) w then 1 else 0)
       + (if String.eqb (LLMModel.id m) l then 1 else 0).
Proof.
  unfold vote_on, Query.by_id.
  destruct (String.eqb (LLMModel.id m) w) eqn:Ew; cbn;
    destruct (String.eqb (LLMModel.id m) l) eqn:El; cbn;
    rewrite ?Ew, ?El; cbn; rewrite ?Ew, ?El; cbn; repeat split; lia.
Qed.

Lemma Forall2_through_map {A B : Type} (f : A -> A) (S T : A -> B -> Prop) c c' :
  (forall m m', S (f m) m' -> T m m') ->
  Forall2 S (map f c) c' -> Forall2 T c c'.
Proof.
  intros Hst. revert c'. induction c as [|m c IH]; intros c' H;
    inversion H; subst; constructor; auto.
Qed.

Lemma run_votes_replay vs d :
  NoDup (map LLMModel.id (llm_models d)) ->
  Forall2
    (fun m m' =>
       LLMModel.id m' = LLMModel.id m
       /\ LLMModel.wins m' = LLMModel.wins m + won (LLMModel.id m) vs
       /\ LLMModel.losses m' = LLMModel.losses m + lost (LLMModel.id m) vs
       /\ LLMModel.total_votes m'
          = LLMModel.total_votes m + won (LLMModel.id m) vs
            + lost (LLMModel.id m) vs)
    (llm_models d) (llm_models (run_votes vs d)).
Proof.
  revert d. induction vs as [|[fresh vr] vs IH]; intros d Hnd.
  - simpl. apply Forall2_diag. intros m. unfold won, lost. simpl.
    repeat split; lia.
  - cbn [run_votes]. rewrite submit_vote_eq. cbn [snd].
    set (w := VoteRequest.winner_id vr). set (l := VoteRequest.loser_id vr).
    set (d1 := {| llm_models := voted w l (llm_models d);
                  votes := (votes d ++ [vote_of fresh vr])%list |}).
    assert (Hnd1 : NoDup (map LLMModel.id (llm_models d1)))
      by (cbn [d1 llm_models]; now rewrite voted_ids).
    specialize (IH d1 Hnd1). cbn [d1 llm_models] in IH.
    rewrite (voted_as_map w l _ Hnd) in IH.
    apply (Forall2_through_map (vote_on w l) _ _ _ _) with (2 := IH).
    intros m m' (K1 & K2 & K3 & K4).
    destruct (vote_on_counters w l m) as (Hid & Hw & Hl & Ht).
    rewrite Hid in K1, K2, K3, K4. rewrite K2, K3, K4, Hw, Hl, Ht.
    unfold won, lost. cbn [filter snd]. fold w l.
    destruct (String.eqb (LLMModel.id m) w), (String.eqb (LLMModel.id m) l);
      cbn [List.length]; repeat split; try assumption; lia.
Qed.

Lemma Forall2_left_Forall {A B : Type} (P : A -> Prop) (S : A -> B -> Prop)
    (Q : B -> Prop) c c' :
  (forall m m', P m -> S m m' -> Q m') ->
  Forall P c -> Forall2 S c c' -> Forall Q c'.
Proof.
  intros Hq Hp H. induction H; inversion Hp; subst; constructor; eauto.
Qed.

(** X18: After a seeding with eight different ids and any votes submitted since,
    every model of the catalog has as many wins as votes that named its id
    as winner, as many losses as votes that named it as loser, and as many
    votes as both together: the counters kept on the documents are what a
    replay of the submitted votes gives. *)
Theorem counters_replay_votes fresh d vs :
  NoDup (map (fun k => uuid4 (fresh k)) (seq 0 8)) ->
  Forall
    (fun m =>
       LLMModel.wins m = won (LLMModel.id m) vs
       /\ LLMModel.losses m = lost (LLMModel.id m) vs
       /\ LLMModel.total_votes m
          = won (LLMModel.id m) vs + lost (LLMModel.id m) vs)
    (llm_models (run_votes vs (snd (seed_models fresh d)))).
Proof.
  intros Hnd. rewrite seed_models_eq. cbn [snd].
  set (d1 := {| llm_models := seeded_catalog fresh; votes := votes d |}).
  assert (Hids : NoDup (map LLMModel.id (llm_models d1)))
    by (cbn [d1 llm_models]; rewrite seeded_ids; exact Hnd).
  pose proof (run_votes_replay vs d1 Hids) as H.
  cbn [d1 llm_models] in H.
  apply (Forall2_left_Forall
           (fun m => LLMModel.wins m = 0 /\ LLMModel.losses m = 0
                     /\ LLMModel.total_votes m = 0) _ _ _ _)
    with (3 := H).
  - intros m m' (Hw0 & Hl0 & Ht0) (K1 & K2 & K3 & K4).
    rewrite K1. repeat split; lia.
  - unfold seeded_catalog. simpl. repeat constructor.
Qed.

Lemma counters_replay_votes_witness :
  Forall
    (fun m =>
       LLMModel.wins m = won (LLMModel.id m) [(fresh_of "v" 0, vote_0_beats_1)]
       /\ LLMModel.losses m = lost (LLMModel.id m) [(fresh_of "v" 0, vote_0_beats_1)]
       /\ LLMModel.total_votes m
          = won (LLMModel.id m) [(fresh_of "v" 0, vote_0_beats_1)]
            + lost (LLMModel.id m) [(fresh_of "v" 0, vote_0_beats_1)])
    (llm_models
       (run_votes [(fresh_of "v" 0, vote_0_beats_1)]
          (snd (seed_models (fresh_of "m") empty_db)))).
Proof.
  apply (counters_replay_votes (fresh_of "m") empty_db
           [(fresh_of "v" 0, vote_0_beats_1)]).
  exact fresh_of_m_distinct.
Defined.

(** ** Votes that overlap *)

(** A vote that makes its driver calls without another request in between
    does what the handler does as a whole. *)
Lemma task_alone fresh vote_request d :
  Task.run 7 (Task.InsertVote fresh vote_request) d
  = (Task.Returned (fst (submit_vote fresh vote_request d)),
     snd (submit_vote fresh vote_request d)).
Proof.
  rewrite submit_vote_eq. destruct vote_request as [w l]. destruct d as [c vs].
  cbn [fst snd VoteRequest.winner_id VoteRequest.loser_id llm_models votes].
  unfold voted.
  cbn [Task.run Task.step Task.loop db.votes.insert_one db.on_votes
       db.llm_models.update_one db.on_models snd llm_models votes
       VoteRequest.winner_id VoteRequest.loser_id].
  fold winner_update loser_update.
  set (c2 := Collection.update_one (Query.by_id l) _ _).
  unfold vote_recorded, vote_of, Collection.insert_one;
    cbn [VoteRequest.winner_id VoteRequest.loser_id].
  destruct (Collection.find_one (Query.by_id w) c2) as [m|] eqn:E1.
  - rewrite calculate_win_rate_eq.
    cbn [Task.step Task.loop db.llm_models.update_one db.on_models snd
         llm_models votes].
    rewrite (write_back _ _ _ E1).
    destruct (Collection.find_one (Query.by_id l) _) as [m'|] eqn:E2.
    + rewrite calculate_win_rate_eq.
      cbn [Task.step Task.loop db.llm_models.update_one db.on_models snd
           llm_models votes].
      now rewrite (write_back _ _ _ E2).
    + cbn [Task.step Task.loop]. now rewrite (update_one_missing _ recompute _ E2).
  - rewrite (update_one_missing _ recompute _ E1).
    cbn [Task.step Task.loop llm_models].
    destruct (Collection.find_one (Query.by_id l) c2) as [m'|] eqn:E2.
    + rewrite calculate_win_rate_eq.
      cbn [Task.step Task.loop db.llm_models.update_one db.on_models snd
           llm_models votes].
      now rewrite (write_back _ _ _ E2).
    + cbn [Task.step Task.loop]. now rewrite (update_one_missing _ recompute _ E2).
Qed.

(** One vote under way is that vote on its own. *)
Lemma interleave_one n task d :
  Task.interleave (repeat 0%nat n) ([task], d)
  = ([fst (Task.run n task d)], snd (Task.run n task d)).
Proof.
  revert task d. induction n as [|n IH]; intros task d; [reflexivity|].
  cbn [repeat Task.run]. unfold Task.interleave in *. cbn [fold_left].
  unfold Task.step_at at 2. cbn [fst snd nth_error Task.replace].
  destruct (Task.step task d) as [task' d']. apply IH.
Qed.

(** C2, as the claim has it, fails when two votes overlap.  On the seeded
    catalog a vote of [m-0] over [m-1] reads [m-0] for its win rate (one win
    out of one vote, 100.0) and gives way; a vote of [m-1] over [m-0] runs
    from start to end; the first vote then writes the 100.0 it computed and
    finishes.  Both votes have returned success and are in the ledger, and
    [m-0] holds one win out of two votes with a win rate of 100.0, where
    [round(1 / 2 * 100, 1)] is 50.0. *)
Lemma overlapping_votes_leave_stale_win_rate :
  let a := Task.InsertVote (fresh_of "a" 0) (VoteRequest.mk "m-0" "m-1") in
  let b := Task.InsertVote (fresh_of "b" 0) (VoteRequest.mk "m-1" "m-0") in
  let s :=
    Task.interleave [0; 0; 0; 0; 1; 1; 1; 1; 1; 1; 1; 0; 0; 0]%nat
      ([a; b], seeded_db) in
  fst s = [Task.Returned (inr vote_recorded); Task.Returned (inr vote_recorded)]
  /\ List.length (votes (snd s)) = 2%nat
  /\ Forall win_rate_settled (llm_models seeded_db)
  /\ exists m,
       Collection.find_one (Query.by_id "m-0") (llm_models (snd s)) = Some m
       /\ LLMModel.total_votes m = 2
       /\ LLMModel.wins m = 1
       /\ LLMModel.win_rate m = 100%float
       /\ Py.round (Py.int_true_divide 1 2 * 100)%float 1 = 50%float
       /\ ~ win_rate_settled m.
Proof.
  cbv zeta.
  split; [vm_compute; reflexivity|].
  split; [vm_compute; reflexivity|].
  split.
  { eapply Forall_impl; [apply current_settled|].
    unfold seeded_db. rewrite seed_models_eq. apply seeded_current. }
  eexists. split; [vm_compute; reflexivity|].
  split; [reflexivity|]. split; [reflexivity|]. split; [reflexivity|].
  split; [vm_compute; reflexivity|].
  intros [Hpos _]. cbn [LLMModel.total_votes LLMModel.wins LLMModel.win_rate] in Hpos.
  specialize (Hpos ltac:(lia)).
  apply (f_equal (fun x => PrimFloat.eqb x 100)) in Hpos.
  vm_compute in Hpos. discriminate.
Qed.
